(** * A shallow embedding of [app.py], the chest X-ray classification desktop tool

    The program is sequential glue around four external collaborators: OpenCV
    (decode and resize), a Keras model (inference), Pillow (thumbnail and banner)
    and Tk (dialogs, list box, progress bar).  The Python functions are
    transcribed as state-passing computations in a small state-and-exception
    monad; the collaborators are fields of an environment record [Env].

    Numbers: [numpy.float32] and Python floats are represented by exact
    rationals ([Q]), so rounding of the float arithmetic is abstracted away
    and the values that are no numbers (nan, the infinities) are left out: the
    scores of the model are finite.  Integer pixel samples are [Z]. *)

From Stdlib Require Import QArith Qround Qabs Qfield DecimalString DecimalN.
From stdpp Require Import gmap strings list fin_maps.

Local Open Scope string_scope.
Local Open Scope list_scope.

(** ** Python exceptions and the computation monad *)

Inductive exn : Type :=
  | ValueError (msg : string)
  | IndexError (msg : string)
  | TypeError (msg : string)
  | cv2_error (msg : string)
  | ModelError (msg : string)
  | OSError (msg : string)
  | TclError (msg : string).

(** [str(e)] as used by the f-string in [preprocess_image]. *)
Definition exn_str (e : exn) : string :=
  match e with
  | ValueError m | IndexError m | TypeError m | cv2_error m
  | ModelError m | OSError m | TclError m => m
  end.

(** A pure computation that may raise. *)
Inductive res (A : Type) : Type :=
  | Ret (a : A)
  | Exc (e : exn).
Arguments Ret {A} a.
Arguments Exc {A} e.

(** ** Pure helpers: decimal printing, number formatting, paths *)

Definition nl : string := String (Ascii.ascii_of_nat 10) "".
Definition backslash : Ascii.ascii := Ascii.ascii_of_nat 92.
Definition slash : Ascii.ascii := Ascii.ascii_of_nat 47.
Definition colon : Ascii.ascii := Ascii.ascii_of_nat 58.

Definition dec (z : Z) : string :=
  NilZero.string_of_uint (N.to_uint (Z.to_N z)).

(** Zero padding to a minimal width, as [%02d] and [%04d] do. *)
Fixpoint zeros (n : nat) : string :=
  match n with
  | O => ""
  | S k => "0" +:+ zeros k
  end.

Definition zpad (width : nat) (z : Z) : string :=
  let s := dec z in
  zeros (width - String.length s) +:+ s.

(** Round to the nearest integer, ties to the even one: the rule of Python's
    float formatting, applied to a non-negative rational. *)
Definition round_half_even (q : Q) : Z :=
  let n := Qnum q in
  let d := Z.pos (Qden q) in
  let fl := (n / d)%Z in
  match (2 * (n mod d) ?= d)%Z with
  | Lt => fl
  | Gt => (fl + 1)%Z
  | Eq => if Z.even fl then fl else (fl + 1)%Z
  end.

(** [f"{x:.2f}"] for a float [x]. *)
Definition format_2f (x : Q) : string :=
  let n := round_half_even (Qabs x * 100) in
  (if (Qnum x <? 0)%Z then "-" else "")
    +:+ dec (n / 100) +:+ "." +:+ zpad 2 (n mod 100).

(** The program runs on Windows ([DATASET_DIR] is a drive path), so [os.path] is
    [ntpath]: both separators split, and a leading drive letter is a prefix of
    its own.  UNC prefixes are not modelled. *)
Definition is_sep (c : Ascii.ascii) : bool :=
  bool_decide (c = backslash) || bool_decide (c = slash).

Definition splitdrive (p : string) : string * string :=
  match p with
  | String d (String c rest) =>
      if bool_decide (c = colon) then (String d (String c ""), rest) else ("", p)
  | _ => ("", p)
  end.

(** The characters after the last separator. *)
Fixpoint after_last_sep (p : string) : string :=
  match p with
  | "" => ""
  | String c rest =>
      if existsb is_sep (String.list_ascii_of_string rest) then after_last_sep rest
      else if is_sep c then rest
      else p
  end.

Definition basename (p : string) : string :=
  after_last_sep (snd (splitdrive p)).

Definition last_char (s : string) : option Ascii.ascii :=
  last (String.list_ascii_of_string s).

(** [os.path.join] of two components.  A second component with a drive or a
    leading separator replaces the first one (the drive-merging refinements of
    [ntpath.join] are left out: no caller passes such a component). *)
Definition path_join (a b : string) : string :=
  match splitdrive b, b with
  | (String _ _, _), _ => b
  | _, String c _ =>
      if is_sep c then b
      else match last_char a with
           | None => b
           | Some l => if is_sep l || bool_decide (l = colon) then a +:+ b
                       else a +:+ String backslash b
           end
  | _, "" =>
      match last_char a with
      | None => ""
      | Some l => if is_sep l || bool_decide (l = colon) then a
                  else a +:+ String backslash ""
      end
  end.

(** [datetime] and [strftime("%Y%m%d_%H%M%S")]. *)
Record datetime : Type := mk_datetime {
  year : Z; month : Z; day : Z; hour : Z; minute : Z; second : Z
}.

Definition strftime_Ymd_HMS (t : datetime) : string :=
  zpad 4 (year t) +:+ zpad 2 (month t) +:+ zpad 2 (day t) +:+ "_"
    +:+ zpad 2 (hour t) +:+ zpad 2 (minute t) +:+ zpad 2 (second t).

(** ** Arrays, images and widgets *)

(** A [numpy.ndarray] as OpenCV returns it from [imread]: the shape, the sample
    type and the flat sample buffer in row-major order. *)
Inductive dtype : Type := uint8 | uint16.

Record ndarray : Type := mk_ndarray {
  shape : list nat;
  sample_type : dtype;
  data : list Z
}.

(** The float array handed to the model. *)
Record tensor : Type := mk_tensor {
  tshape : list nat;
  tdata : list Q
}.

(** A Pillow image, kept symbolically: the file it was decoded from, its mode
    and size, and the operations applied to its raster so far, oldest first. *)
Inductive ImageOp : Type :=
  | OpConvert (mode : string)
  | OpResize (w h : Z)
  | OpRectangle (x0 y0 x1 y1 : Z) (fill : string)
  | OpText (x y : Z) (text : string) (fill : string).

Record PILImage : Type := mk_image {
  im_file : string;
  im_mode : string;
  im_width : Z;
  im_height : Z;
  im_ops : list ImageOp
}.

Inductive PhotoImage : Type :=
  | mk_PhotoImage (img : PILImage).

(** What the program does to the outside world, in order. *)
Inductive Event : Type :=
  | EImread (path : string)
  | EModelPredict
  | EShowError (title message : string)
  | EShowInfo (title message : string)
  | EMakedirs (path : string)
  | ENow
  | EOpenWrite (path : string)
  | EUpdateIdletasks.

#[global] Instance Event_eq_dec : EqDecision Event.
Proof. solve_decision. Defined.

Definition is_imread (e : Event) : bool :=
  match e with
  | EImread _ => true
  | _ => false
  end.

(** One line of the list box: its text and the foreground set by [itemconfig]. *)
Definition item : Type := string * option string.

(** The mutable world: the event log (newest last), the Tk widgets the program
    touches, and the part of the file system it writes.  A report file is the
    list of the rows written to it. *)
Record State : Type := mk_State {
  log : list Event;
  listbox : list item;
  progress_value : nat;
  progress_maximum : nat;
  dirs : gset string;
  files : gmap string (list (list string));
  image_label : option PhotoImage;
  result_label : string * string
}.

Definition set_log (f : list Event -> list Event) (st : State) : State :=
  mk_State (f (log st)) (listbox st) (progress_value st) (progress_maximum st)
           (dirs st) (files st) (image_label st) (result_label st).
Definition set_listbox (f : list item -> list item) (st : State) : State :=
  mk_State (log st) (f (listbox st)) (progress_value st) (progress_maximum st)
           (dirs st) (files st) (image_label st) (result_label st).
Definition set_progress_value (v : nat) (st : State) : State :=
  mk_State (log st) (listbox st) v (progress_maximum st)
           (dirs st) (files st) (image_label st) (result_label st).
Definition set_progress_maximum (v : nat) (st : State) : State :=
  mk_State (log st) (listbox st) (progress_value st) v
           (dirs st) (files st) (image_label st) (result_label st).
Definition set_dirs (f : gset string -> gset string) (st : State) : State :=
  mk_State (log st) (listbox st) (progress_value st) (progress_maximum st)
           (f (dirs st)) (files st) (image_label st) (result_label st).
Definition set_files
    (f : gmap string (list (list string)) -> gmap string (list (list string)))
    (st : State) : State :=
  mk_State (log st) (listbox st) (progress_value st) (progress_maximum st)
           (dirs st) (f (files st)) (image_label st) (result_label st).
Definition set_image_label (v : option PhotoImage) (st : State) : State :=
  mk_State (log st) (listbox st) (progress_value st) (progress_maximum st)
           (dirs st) (files st) v (result_label st).
Definition set_result_label (v : string * string) (st : State) : State :=
  mk_State (log st) (listbox st) (progress_value st) (progress_maximum st)
           (dirs st) (files st) (image_label st) v.

(** The window as [BUILD GUI] leaves it, over an empty file system. *)
Definition initial_state : State :=
  mk_State [] [] 0 100 ∅ ∅ None ("", "").

(** The external collaborators.  [IMG_H] and [IMG_W] are read from the loaded
    model once; [cv2_imread] answers [None] for a file it cannot decode;
    [cv2_resize] takes the target width and height; [model_predict] returns one
    row of scores per batch entry; [datetime_now] reads the clock, which may
    depend on what has happened so far; [Image_open] gives mode, width and
    height of the decoded file. *)
Record Env : Type := mk_Env {
  IMG_H : nat;
  IMG_W : nat;
  cv2_imread : string -> option ndarray;
  cv2_resize : ndarray -> nat -> nat -> res ndarray;
  model_predict : tensor -> res (list (list Q));
  datetime_now : list Event -> datetime;
  Image_open : string -> res (string * Z * Z)
}.

(** The result of running a computation: a value or a raised exception, with
    the world as it is at that point. *)
Inductive outcome (A : Type) : Type :=
  | Normal (a : A) (st : State)
  | Raised (e : exn) (st : State).
Arguments Normal {A} a st.
Arguments Raised {A} e st.

Definition M (A : Type) : Type := State -> outcome A.

Definition final_state {A : Type} (o : outcome A) : State :=
  match o with
  | Normal _ st | Raised _ st => st
  end.

#[global] Instance M_ret : MRet M := fun A a st => Normal a st.
#[global] Instance M_bind : MBind M := fun A B k c st =>
  match c st with
  | Normal a st' => k a st'
  | Raised e st' => Raised e st'
  end.

Definition raise {A : Type} (e : exn) : M A := fun st => Raised e st.

Definition lift {A : Type} (r : res A) : M A :=
  match r with
  | Ret a => mret a
  | Exc e => raise e
  end.

(** [try: body  except Exception as e: handler e]. *)
Definition try_except {A : Type} (body : M A) (handler : exn -> M A) : M A :=
  fun st =>
    match body st with
    | Normal a st' => Normal a st'
    | Raised e st' => handler e st'
    end.

(** The world after the events [l] have happened. *)
Definition add_log (l : list Event) (st : State) : State :=
  set_log (fun l0 => l0 ++ l) st.

Definition emit (e : Event) : M unit :=
  fun st => Normal tt (add_log [e] st).

Definition update (f : State -> State) : M unit :=
  fun st => Normal tt (f st).

Definition get_log : M (list Event) := fun st => Normal (log st) st.

(** ** Configuration *)

Definition DATASET_DIR : string := "C:\Users\USER\Desktop\DATASETS\XRAY".

Definition CLASS_NAMES : list string := ["COVID"; "TB"; "PNEUMONIA"; "NORMAL"].

Definition CLASS_COLORS : gmap string string :=
  <["COVID" := "#FF4C4C"]> (<["TB" := "#FF9900"]>
    (<["PNEUMONIA" := "#FFD700"]> (<["NORMAL" := "#4CAF50"]> ∅))).

(** [CLASS_COLORS.get(label, "black")]. *)
Definition color_of (label : string) : string :=
  default "black" (CLASS_COLORS !! label).

(** ** OpenCV and NumPy operations *)

(** [cv2.cvtColor(img, cv2.COLOR_GRAY2RGB)]: every sample becomes three equal
    ones.  OpenCV refuses an input that is not single-channel. *)
Definition cvtColor_GRAY2RGB (img : ndarray) : res ndarray :=
  match shape img with
  | [h; w] | [h; w; 1] =>
      Ret (mk_ndarray [h; w; 3] (sample_type img)
             (flat_map (fun v => [v; v; v]) (data img)))
  | _ => Exc (cv2_error "Invalid number of channels in input image")
  end.

(** [img.astype(np.float32)/255.0]. *)
Definition astype_float32_div255 (img : ndarray) : tensor :=
  mk_tensor (shape img) (map (fun v => inject_Z v / 255)%Q (data img)).

(** [np.expand_dims(img, 0)]. *)
Definition expand_dims0 (t : tensor) : tensor :=
  mk_tensor (1 :: tshape t) (tdata t).

(** [np.argmax] of a one-dimensional array: the first index holding the
    maximum; an empty array is refused. *)
Fixpoint argmax_from (best_i : nat) (best : Q) (i : nat) (l : list Q) : nat :=
  match l with
  | [] => best_i
  | x :: r =>
      if Qle_bool x best then argmax_from best_i best (S i) r
      else argmax_from i x (S i) r
  end.

Definition np_argmax (l : list Q) : res nat :=
  match l with
  | [] => Exc (ValueError "attempt to get argmax of an empty sequence")
  | x :: r => Ret (argmax_from 0 x 1 r)
  end.

(** Indexing a Python list or a one-dimensional array. *)
Definition index {A : Type} (l : list A) (i : nat) : res A :=
  match l !! i with
  | Some a => Ret a
  | None => Exc (IndexError "index out of range")
  end.

(** ** Tk and file-system operations *)

Definition dq : string := String (Ascii.ascii_of_nat 34) "".

Definition showerror (title message : string) : M unit :=
  emit (EShowError title message).

Definition showinfo (title message : string) : M unit :=
  emit (EShowInfo title message).

(** [listbox.delete(0, tk.END)]. *)
Definition listbox_delete_all : M unit :=
  update (set_listbox (fun _ => [])).

(** [listbox.insert(tk.END, text)]. *)
Definition listbox_insert_end (text : string) : M unit :=
  update (set_listbox (fun l => l ++ [(text, None)])).

(** [listbox.itemconfig(index, {'fg': fg})].  Tk answers an index outside the
    list with the error [item number "index" out of range], which tkinter
    raises as [TclError]. *)
Definition listbox_itemconfig (idx : Z) (fg : string) : M unit :=
  fun st =>
    if ((0 <=? idx) && (idx <? Z.of_nat (length (listbox st))))%Z
    then Normal tt
           (set_listbox (alter (fun it => (fst it, Some fg)) (Z.to_nat idx)) st)
    else Raised (TclError ("item number " +:+ dq +:+ dec idx +:+ dq
                             +:+ " out of range")) st.

Definition update_idletasks : M unit := emit EUpdateIdletasks.

(** [os.makedirs(path, exist_ok=True)]: the directory exists afterwards,
    whether or not it did before. *)
Definition makedirs_exist_ok (path : string) : M unit :=
  _ ← emit (EMakedirs path);
  update (set_dirs (fun d => {[path]} ∪ d)).

(** [open(path, mode='w')]: the file is created, or emptied if it exists. *)
Definition open_w (path : string) : M unit :=
  _ ← emit (EOpenWrite path);
  update (set_files (fun fs => <[path := []]> fs)).

Definition file_append (path : string) (rows : list (list string)) : M unit :=
  update (set_files (fun fs => <[path := default [] (fs !! path) ++ rows]> fs)).

Definition writerow (path : string) (row : list string) : M unit :=
  file_append path [row].

Definition writerows (path : string) (rows : list (list string)) : M unit :=
  file_append path rows.

(** ** UTILITY FUNCTIONS *)

(** [f"{conf:.2f}"]; [None] has no such format. *)
Definition format_conf (conf : option Q) : res string :=
  match conf with
  | Some c => Ret (format_2f c)
  | None => Exc (TypeError "unsupported format string passed to NoneType.__format__")
  end.

(** [f"Failed to load {image_path}\n{e}"]. *)
Definition image_error_message (image_path : string) (e : exn) : string :=
  "Failed to load " +:+ image_path +:+ nl +:+ exn_str e.

Definition preprocess_image (env : Env) (image_path : string) : M (option tensor) :=
  try_except
    (_ ← emit (EImread image_path);
     match cv2_imread env image_path with
     | None => raise (ValueError "Cannot read image")
     | Some img =>
         gray ← (if bool_decide (length (shape img) = 2) then mret true
                 else (c ← lift (index (shape img) 2);
                       mret (bool_decide (c = 1))));
         img ← (if gray : bool then lift (cvtColor_GRAY2RGB img) else mret img);
         img ← lift (cv2_resize env img (IMG_W env) (IMG_H env));
         let img := astype_float32_div255 img in
         let img := expand_dims0 img in
         mret (Some img)
     end)
    (fun e =>
       _ ← showerror "Image Error" (image_error_message image_path e);
       mret None).

Definition predict_image (env : Env) (image_path : string)
  : M (option string * option Q) :=
  img ← preprocess_image env image_path;
  match img with
  | None => mret (None, None)
  | Some img =>
      _ ← emit EModelPredict;
      rows ← lift (model_predict env img);
      preds ← lift (index rows 0);
      idx ← lift (np_argmax preds);
      name ← lift (index CLASS_NAMES idx);
      p ← lift (index preds idx);
      mret (Some name, Some (p * 100)%Q)
  end.

(** [Image.thumbnail((x, y))], as Pillow 7 and later compute it: the target
    size, or [None] when the image already fits.  [round_aspect] picks, between
    the floor and the ceiling of the exact scaled length, the one whose aspect
    ratio is closer (the floor on a tie), and never less than 1.  The JPEG
    draft mode, which changes how the raster is decoded and not the target
    size, is left out.  Pillow compares the two ratios in binary floating
    point, here they are compared exactly: where they are equal or nearly so
    Pillow may take the other of the two neighbours (for 270 x 400 it takes
    203 where this definition takes 202).  What is proved of the size holds of
    both neighbours. *)
Definition round_aspect (number : Q) (key : Z -> Q) : Z :=
  let lo := Qfloor number in
  let hi := Qceiling number in
  Z.max (if Qle_bool (key lo) (key hi) then lo else hi) 1.

Definition thumbnail_size (width height x y : Z) : option (Z * Z) :=
  if ((width <=? x) && (height <=? y))%Z then None
  else
    let aspect := (inject_Z width / inject_Z height)%Q in
    if Qle_bool aspect (inject_Z x / inject_Z y)
    then Some (round_aspect (inject_Z y * aspect)
                 (fun n => Qabs (aspect - inject_Z n / inject_Z y)), y)
    else Some (x, round_aspect (inject_Z x / aspect)
                 (fun n => if (n =? 0)%Z then 0%Q
                           else Qabs (aspect - inject_Z x / inject_Z n))).

Definition thumbnail (x y : Z) (img : PILImage) : PILImage :=
  match thumbnail_size (im_width img) (im_height img) x y with
  | None => img
  | Some (w, h) =>
      if bool_decide ((im_width img, im_height img) = (w, h)) then img
      else mk_image (im_file img) (im_mode img) w h
             (im_ops img ++ [OpResize w h])
  end.

Definition convert (mode : string) (img : PILImage) : PILImage :=
  mk_image (im_file img) mode (im_width img) (im_height img)
    (im_ops img ++ [OpConvert mode]).

Definition draw_rectangle (x0 y0 x1 y1 : Z) (fill : string) (img : PILImage)
  : PILImage :=
  mk_image (im_file img) (im_mode img) (im_width img) (im_height img)
    (im_ops img ++ [OpRectangle x0 y0 x1 y1 fill]).

Definition draw_text (x y : Z) (text fill : string) (img : PILImage) : PILImage :=
  mk_image (im_file img) (im_mode img) (im_width img) (im_height img)
    (im_ops img ++ [OpText x y text fill]).

Definition overlay_prediction (env : Env) (image_path label : string)
    (confidence : option Q) : M PhotoImage :=
  '(mode, w, h) ← lift (Image_open env image_path);
  let img := mk_image image_path mode w h [] in
  let img := if bool_decide (im_mode img = "RGB") then img else convert "RGB" img in
  let img := thumbnail 300 300 img in
  c ← lift (format_conf confidence);
  let text := label +:+ " (" +:+ c +:+ "%)" in
  let img := draw_rectangle 0 0 (im_width img) 25 (color_of label) img in
  let img := draw_text 5 5 text "white" img in
  mret (mk_PhotoImage img).

(** ** GUI FUNCTIONS

    The file pickers are the user's side: what [askopenfilename] and
    [askopenfilenames] return is the argument of the two handlers (the empty
    string, the empty tuple when the user cancels). *)

(** What [upload_predict_single] does with the pair [predict_image] returned. *)
Definition upload_on_result (env : Env) (file_path : string)
    (result : option string * option Q) : M unit :=
  let '(label, conf) := result in
  match label with
  | None => mret tt
  | Some label =>
      img_tk ← overlay_prediction env file_path label conf;
      _ ← update (set_image_label (Some img_tk));
      c ← lift (format_conf conf);
      update (set_result_label
                ("Prediction: " +:+ label +:+ nl +:+ "Confidence: " +:+ c +:+ "%",
                 color_of label))
  end.

Definition upload_predict_single (env : Env) (file_path : string) : M unit :=
  if bool_decide (file_path = "") then mret tt
  else
    result ← predict_image env file_path;
    upload_on_result env file_path result.

(** What the [for] loop of [batch_predict] does, for the [i]-th file
    ([enumerate] counts from 1), with the pair [predict_image] returned;
    [results] is threaded through. *)
Definition batch_on_result (env : Env) (i : nat) (file_path : string)
    (results : list (list string)) (result : option string * option Q)
  : M (list (list string)) :=
  let '(label, conf) := result in
  match label with
  | None => mret results
  | Some label =>
      c ← lift (format_conf conf);
      let results := results ++ [[basename file_path; label; c +:+ "%"]] in
      _ ← listbox_insert_end
            (basename file_path +:+ " → " +:+ label +:+ " (" +:+ c +:+ "%)");
      _ ← listbox_itemconfig (Z.of_nat i - 1) (color_of label);
      _ ← update (set_progress_value i);
      _ ← update_idletasks;
      mret results
  end.

(** The body of the loop. *)
Definition batch_body (env : Env) (i : nat) (file_path : string)
    (results : list (list string)) : M (list (list string)) :=
  result ← predict_image env file_path;
  batch_on_result env i file_path results result.

Fixpoint batch_loop (env : Env) (i : nat) (file_paths : list string)
    (results : list (list string)) : M (list (list string)) :=
  match file_paths with
  | [] => mret results
  | file_path :: rest =>
      results ← batch_body env i file_path results;
      batch_loop env (S i) rest results
  end.

Definition csv_header : list string := ["Image"; "Prediction"; "Confidence"].

Definition save_folder : string := path_join DATASET_DIR "predictions".

Definition csv_name (timestamp : string) : string :=
  "xray_predictions_" +:+ timestamp +:+ ".csv".

Definition batch_predict (env : Env) (file_paths : list string) : M unit :=
  match file_paths with
  | [] => mret tt
  | _ =>
      _ ← update (set_progress_value 0);
      _ ← update (set_progress_maximum (length file_paths));
      _ ← listbox_delete_all;
      _ ← makedirs_exist_ok save_folder;
      now ← get_log;
      _ ← emit ENow;
      let timestamp := strftime_Ymd_HMS (datetime_now env now) in
      let csv_file := path_join save_folder (csv_name timestamp) in
      results ← batch_loop env 1 file_paths [];
      _ ← open_w csv_file;
      _ ← writerow csv_file csv_header;
      _ ← writerows csv_file results;
      showinfo "Batch Prediction"
        ("Predictions completed!" +:+ nl +:+ "Saved to: " +:+ csv_file)
  end.

(** ** A concrete world, used to run the program on explicit inputs *)

(** Nearest-neighbour resampling, one of OpenCV's interpolation methods: the
    target sample at row [r], column [c] is the source sample at row
    [r * h / H], column [c * w / W]. *)
Definition resize_nearest (img : ndarray) (W H : nat) : res ndarray :=
  let pick (h w ch : nat) : list Z :=
    r ← seq 0 H;
    c ← seq 0 W;
    k ← seq 0 ch;
    [nth (((r * h / H) * w + c * w / W) * ch + k) (data img) 0%Z] in
  match shape img with
  | [h; w] =>
      if bool_decide (h = 0 ∨ w = 0 ∨ H = 0 ∨ W = 0)
      then Exc (cv2_error "empty image or size")
      else Ret (mk_ndarray [H; W] (sample_type img) (pick h w 1))
  | [h; w; ch] =>
      if bool_decide (h = 0 ∨ w = 0 ∨ H = 0 ∨ W = 0)
      then Exc (cv2_error "empty image or size")
      else Ret (mk_ndarray [H; W; ch] (sample_type img) (pick h w ch))
  | _ => Exc (cv2_error "unsupported array")
  end.

Module Demo.

Definition normal_png : string := "C:/xrays/normal.png".
Definition covid_jpg : string := "C:/xrays/covid.jpg".
Definition alpha_png : string := "C:/xrays/alpha.png".
Definition deep_png : string := "C:/xrays/deep.png".
Definition corrupt_png : string := "C:/xrays/corrupt.png".

(** Five files: an 8-bit grayscale image, an 8-bit colour image, an 8-bit
    image with an alpha channel, a 16-bit grayscale image and a file that
    does not decode. *)
Definition imread (path : string) : option ndarray :=
  if bool_decide (path = normal_png)
  then Some (mk_ndarray [1; 2] uint8 [0; 255]%Z)
  else if bool_decide (path = covid_jpg)
  then Some (mk_ndarray [1; 1; 3] uint8 [10; 20; 30]%Z)
  else if bool_decide (path = alpha_png)
  then Some (mk_ndarray [1; 1; 4] uint8 [10; 20; 30; 255]%Z)
  else if bool_decide (path = deep_png)
  then Some (mk_ndarray [1; 1] uint16 [65535]%Z)
  else None.

(** A model whose input shape is (None, 2, 2, 3): it refuses any other
    tensor, and scores a dark first sample as NORMAL, another one as COVID. *)
Definition model (t : tensor) : res (list (list Q)) :=
  if bool_decide (tshape t = [1; 2; 2; 3])
  then match tdata t with
       | v :: _ =>
           if Qle_bool v 0
           then Ret [[1 # 10; 1 # 10; 1 # 10; 7 # 10]]
           else Ret [[97345 # 100000; 1 # 100; 1 # 100; 655 # 100000]]
       | [] => Exc (ModelError "empty tensor")
       end
  else Exc (ModelError "input is incompatible with the layer: expected shape (None, 2, 2, 3)").

(** A clock that shows 2024-03-09 07:05:00 plus one second per image read
    so far. *)
Definition reads (l : list Event) : nat :=
  length (List.filter is_imread l).

Definition clock (l : list Event) : datetime :=
  mk_datetime 2024 3 9 7 5 (Z.of_nat (reads l)).

Definition pil_open (path : string) : res (string * Z * Z) :=
  if bool_decide (path = normal_png) then Ret ("L", 600, 400)%Z
  else if bool_decide (path = covid_jpg) then Ret ("RGB", 200, 100)%Z
  else Exc (OSError "cannot identify image file").

Definition env : Env :=
  mk_Env 2 2 imread resize_nearest model clock pil_open.

(** What the pieces above give for the five files. *)
Definition alpha_image : ndarray := mk_ndarray [1; 1; 4] uint8 [10; 20; 30; 255]%Z.

Definition alpha_resized : ndarray :=
  mk_ndarray [2; 2; 4] uint8
    [10; 20; 30; 255; 10; 20; 30; 255; 10; 20; 30; 255; 10; 20; 30; 255]%Z.

Definition alpha_tensor : tensor :=
  expand_dims0 (astype_float32_div255 alpha_resized).

Definition normal_tensor : tensor :=
  mk_tensor [1; 2; 2; 3]
    [0 # 255; 0 # 255; 0 # 255; 255 # 255; 255 # 255; 255 # 255;
     0 # 255; 0 # 255; 0 # 255; 255 # 255; 255 # 255; 255 # 255].

Definition normal_scores : list Q := [1 # 10; 1 # 10; 1 # 10; 7 # 10].

Definition skipped_log : list Event :=
  [EImread corrupt_png;
   EShowError "Image Error"
     (image_error_message corrupt_png (ValueError "Cannot read image"))].

End Demo.

(** ** Vocabulary for the statements about a batch run *)

(** The file is one that [predict_image] answers with no label: its
    preprocessing fails. *)
Definition skipped (env : Env) (path : string) : bool :=
  match predict_image env path initial_state with
  | Normal (None, _) _ => true
  | _ => false
  end.

(** The row of the report for a file that is classified. *)
Definition report_row (env : Env) (path : string) : option (list string) :=
  match predict_image env path initial_state with
  | Normal (Some label, Some conf) _ =>
      Some [basename path; label; format_2f conf +:+ "%"]
  | _ => None
  end.

(** The world when the loop of [batch_predict] starts, the run having begun in
    [st]. *)
Definition batch_start (file_paths : list string) (st : State) : State :=
  add_log [EMakedirs save_folder; ENow]
    (set_dirs (fun d => {[save_folder]} ∪ d)
       (set_listbox (fun _ => [])
          (set_progress_maximum (length file_paths)
             (set_progress_value 0 st)))).

(** The time stamp of a run begun in [st], and the report file named after it. *)
Definition batch_timestamp (env : Env) (st : State) : string :=
  strftime_Ymd_HMS (datetime_now env (log st ++ [EMakedirs save_folder])).

Definition batch_csv_file (env : Env) (st : State) : string :=
  path_join save_folder (csv_name (batch_timestamp env st)).

(** The world after the report of a run begun in [st0] has been written from
    [results], the loop having ended in [st1]. *)
Definition batch_finish (env : Env) (st0 : State) (results : list (list string))
    (st1 : State) : State :=
  add_log [EShowInfo "Batch Prediction"
             ("Predictions completed!" +:+ nl +:+ "Saved to: "
                +:+ batch_csv_file env st0)]
    (set_files (fun fs => <[batch_csv_file env st0 := csv_header :: results]> fs)
       (add_log [EOpenWrite (batch_csv_file env st0)] st1)).

(** Two readings of the specification that the program is compared with.
    First: a batch run shows no error dialog for a file that does not decode. *)
Definition batch_failures_silent (env : Env) (file_paths : list string)
    (st : State) : Prop :=
  forall p e,
    In p file_paths -> cv2_imread env p = None ->
    ~ In (EShowError "Image Error" (image_error_message p e))
         (log (final_state (batch_predict env file_paths st))).

(** Second: the clock is read once the list of images is exhausted, so no
    image is read after the clock. *)
Definition clock_read_after_images (l : list Event) : Prop :=
  forall l1 l2 path, l = l1 ++ ENow :: l2 -> ~ In (EImread path) l2.

(** Eight digits, an underscore and six digits: [YYYYMMDD_HHMMSS]. *)
Definition is_digit (c : Ascii.ascii) : bool :=
  Nat.leb 48 (Ascii.nat_of_ascii c) && Nat.leb (Ascii.nat_of_ascii c) 57.

Definition all_digits (s : string) : bool :=
  forallb is_digit (String.list_ascii_of_string s).

Definition is_timestamp (s : string) : bool :=
  match String.list_ascii_of_string s with
  | [y1; y2; y3; y4; m1; m2; d1; d2; u; h1; h2; n1; n2; s1; s2] =>
      forallb is_digit [y1; y2; y3; y4; m1; m2; d1; d2; h1; h2; n1; n2; s1; s2]
      && bool_decide (u = Ascii.ascii_of_nat 95)
  | _ => false
  end.

(** A string of exactly [n] decimal digits. *)
Definition digits_n (n : nat) (s : string) : bool :=
  Nat.eqb (length (String.list_ascii_of_string s)) n && all_digits s.

(** A date and time of the calendar, as [datetime.now()] returns one. *)
Definition valid_datetime (t : datetime) : Prop :=
  (1 <= year t <= 9999 /\ 1 <= month t <= 12 /\ 1 <= day t <= 31 /\
   0 <= hour t <= 23 /\ 0 <= minute t <= 59 /\ 0 <= second t <= 59)%Z.

(** The operations that [convert] and [thumbnail] apply, as opposed to what is
    drawn on the image. *)
Definition is_raster_op (op : ImageOp) : Prop :=
  match op with
  | OpConvert _ | OpResize _ _ => True
  | OpRectangle _ _ _ _ _ | OpText _ _ _ _ => False
  end.

(** ** Vocabulary for the statements about the handlers as a whole *)

(** The list-box line of a file that is classified: its text, and the colour
    [itemconfig] gives it. *)
Definition listbox_line (env : Env) (path : string) : option item :=
  match predict_image env path initial_state with
  | Normal (Some label, Some conf) _ =>
      Some (basename path +:+ " → " +:+ label +:+ " (" +:+ format_2f conf +:+ "%)",
            Some (color_of label))
  | _ => None
  end.

(** What one turn of the batch loop adds to the log when it returns. *)
Definition batch_events (env : Env) (path : string) : list Event :=
  match predict_image env path initial_state with
  | Normal (Some _, Some _) s0 => log s0 ++ [EUpdateIdletasks]
  | Normal _ s0 | Raised _ s0 => log s0
  end.

Definition is_error_dialog (e : Event) : bool :=
  match e with
  | EShowError _ _ => true
  | _ => false
  end.

Definition is_model_call (e : Event) : bool :=
  match e with
  | EModelPredict => true
  | _ => false
  end.

Definition is_info_dialog (e : Event) : bool :=
  match e with
  | EShowInfo _ _ => true
  | _ => false
  end.

(** The banner [overlay_prediction] draws for a label and a confidence on an
    image of the given width. *)
Definition banner (width : Z) (label : string) (conf : Q) : list ImageOp :=
  [OpRectangle 0 0 width 25 (color_of label);
   OpText 5 5 (label +:+ " (" +:+ format_2f conf +:+ "%)") "white"].

(** The text [upload_predict_single] puts under the image. *)
Definition result_text (label : string) (conf : Q) : string :=
  "Prediction: " +:+ label +:+ nl +:+ "Confidence: " +:+ format_2f conf +:+ "%".

(** The number a string of decimal digits stands for. *)
Definition digits_value (l : list Ascii.ascii) : Z :=
  fold_left (fun acc c => (acc * 10 + (Z.of_nat (Ascii.nat_of_ascii c) - 48))%Z) l 0%Z.

(** Reading [YYYYMMDD_HHMMSS] back. *)
Definition parse_timestamp (s : string) : option datetime :=
  match String.list_ascii_of_string s with
  | [y1; y2; y3; y4; m1; m2; d1; d2; _; h1; h2; n1; n2; s1; s2] =>
      Some (mk_datetime (digits_value [y1; y2; y3; y4]) (digits_value [m1; m2])
              (digits_value [d1; d2]) (digits_value [h1; h2])
              (digits_value [n1; n2]) (digits_value [s1; s2]))
  | _ => None
  end.

(** A world whose model has five outputs, one more than there are class
    names, and scores the fifth highest. *)
Module DemoWide.

Definition model (t : tensor) : res (list (list Q)) :=
  Ret [[1 # 10; 1 # 10; 1 # 10; 1 # 10; 6 # 10]].

Definition env : Env :=
  mk_Env 2 2 Demo.imread resize_nearest model Demo.clock Demo.pil_open.

End DemoWide.

(** [MODEL_PATH], the file the classifier is loaded from at start-up. *)
Definition MODEL_PATH : string := path_join DATASET_DIR "classifier_4class.h5".

(** A run over two classified files and one that does not decode, and the
    world it ends in. *)
Module DemoRun.

Definition paths : list string :=
  [Demo.normal_png; Demo.covid_jpg; Demo.corrupt_png].

Definition finished : State :=
  final_state (batch_predict Demo.env paths initial_state).

End DemoRun.

(** ** What a rectangle paints, and reading numbers back *)

(** The pixels [ImageDraw.rectangle] fills on an image of the given size: the
    box includes both of its corner points, and what lies outside the image
    is dropped. *)
Definition covers (op : ImageOp) (width height x y : Z) : bool :=
  match op with
  | OpRectangle x0 y0 x1 y1 _ =>
      ((x0 <=? x) && (x <=? x1) && (y0 <=? y) && (y <=? y1)
       && (0 <=? x) && (x <? width) && (0 <=? y) && (y <? height))%Z
  | _ => false
  end.

(** A third reading of the specification that the program is compared with:
    what a rectangle paints is the band of the full width and of 25 rows at
    the top of the image. *)
Definition band_25_high (op : ImageOp) (width height : Z) : Prop :=
  forall x y,
    covers op width height x y = true <-> (0 <= x < width /\ 0 <= y < 25)%Z.

(** And that is what the rectangle drawn by [overlay_prediction], the last
    operation but one on the image it returns, paints. *)
Definition banner_25_high (env : Env) (path label : string) (c : Q) : Prop :=
  forall (img : PILImage) (ops : list ImageOp) (rect text : ImageOp)
         (st st' : State),
    overlay_prediction env path label (Some c) st = Normal (mk_PhotoImage img) st' ->
    im_ops img = ops ++ [rect; text] ->
    band_25_high rect (im_width img) (im_height img).

(** The number a non-empty string of decimal digits stands for, read by the
    parser of the Standard Library; [read_dec] refuses superfluous zeros in
    front, as Python writes none. *)
Definition read_digits (s : string) : option Z :=
  match NilZero.uint_of_string s with
  | Some d => Some (Z.of_N (N.of_uint d))
  | None => None
  end.

Definition read_dec (s : string) : option Z :=
  match s with
  | String c (String _ _) =>
      if bool_decide (c = Ascii.ascii_of_nat 48) then None else read_digits s
  | _ => read_digits s
  end.

(** [s] writes the number [x] with two decimals: a minus sign when [x] is
    negative, the whole part, a point and two digits, which together are the
    hundredth nearest to the magnitude of [x], the even one of two that are
    equally near. *)
Definition writes_2f (s : string) (x : Q) : Prop :=
  exists (sign whole frac : string) (n : Z),
    s = sign +:+ whole +:+ "." +:+ frac /\
    ((x < 0)%Q /\ sign = "-" \/ (0 <= x)%Q /\ sign = "") /\
    read_dec whole = Some (n / 100)%Z /\
    read_digits frac = Some (n mod 100)%Z /\
    String.length frac = 2 /\
    (0 <= n)%Z /\
    (Qabs (inject_Z n - Qabs x * 100) <= 1 # 2)%Q /\
    (Qabs (inject_Z n - Qabs x * 100) == 1 # 2 -> Z.even n = true)%Q.

(** The parts of a path that [ntpath.basename] drops: a drive, which is a
    letter and a colon in front, and the directories, which end with a
    separator. *)
Definition is_drive (p drive : string) : Prop :=
  (drive = "" /\ forall d rest, p <> String d (String colon rest)) \/
  (exists d, drive = String d (String colon "")).

Definition is_dir_prefix (dir : string) : Prop :=
  dir = "" \/ exists d c, dir = d +:+ String c "" /\ is_sep c = true.

(** A world in which Pillow opens a strip of 3000 by 10 pixels. *)
Module DemoThin.

Definition strip_png : string := "C:/xrays/strip.png".

Definition pil_open (path : string) : res (string * Z * Z) :=
  Ret ("RGB", 3000, 10)%Z.

Definition env : Env :=
  mk_Env 2 2 Demo.imread resize_nearest Demo.model Demo.clock pil_open.

End DemoThin.

(** * Properties *)

(** ** The event log *)

Lemma add_log_nil (st : State) : add_log [] st = st.
Proof. destruct st; unfold add_log, set_log; simpl. by rewrite app_nil_r. Qed.

Lemma add_log_app (l1 l2 : list Event) (st : State) :
  add_log l2 (add_log l1 st) = add_log (l1 ++ l2) st.
Proof. unfold add_log, set_log; simpl. by rewrite app_assoc. Qed.

Lemma log_add_log (l : list Event) (st : State) :
  log (add_log l st) = log st ++ l.
Proof. reflexivity. Qed.

Ltac unfold_monad :=
  unfold mbind, M_bind, mret, M_ret, raise, lift, emit, update, try_except,
    showerror, showinfo, update_idletasks, get_log in *.

(** A computation is [log_only] when it does nothing to the world but append
    events, and neither its answer nor those events depend on the world. *)
Definition log_only {A : Type} (c : M A) : Prop :=
  (exists a l, forall st, c st = Normal a (add_log l st)) \/
  (exists e l, forall st, c st = Raised e (add_log l st)).

Lemma log_only_ret {A : Type} (a : A) : log_only (mret a).
Proof. left. exists a, []. intros st. by rewrite add_log_nil. Qed.

Lemma log_only_raise {A : Type} (e : exn) : log_only (raise e : M A).
Proof. right. exists e, []. intros st. by rewrite add_log_nil. Qed.

Lemma log_only_lift {A : Type} (r : res A) : log_only (lift r).
Proof. destruct r; [apply log_only_ret | apply log_only_raise]. Qed.

Lemma log_only_emit (e : Event) : log_only (emit e).
Proof. left. exists tt, [e]. reflexivity. Qed.

Lemma log_only_bind {A B : Type} (c : M A) (k : A -> M B) :
  log_only c -> (forall a, log_only (k a)) -> log_only (c ≫= k).
Proof.
  intros [(a & l & Hc) | (e & l & Hc)] Hk.
  - destruct (Hk a) as [(b & l' & Hb) | (e & l' & Hb)]; [left; exists b | right; exists e];
      exists (l ++ l'); intros st; unfold mbind, M_bind;
      by rewrite Hc, Hb, add_log_app.
  - right. exists e, l. intros st. unfold mbind, M_bind. by rewrite Hc.
Qed.

Lemma log_only_try {A : Type} (c : M A) (h : exn -> M A) :
  log_only c -> (forall e, log_only (h e)) -> log_only (try_except c h).
Proof.
  intros [(a & l & Hc) | (e & l & Hc)] Hh.
  - left. exists a, l. intros st. unfold try_except. by rewrite Hc.
  - destruct (Hh e) as [(b & l' & Hb) | (e' & l' & Hb)]; [left; exists b | right; exists e'];
      exists (l ++ l'); intros st; unfold try_except;
      by rewrite Hc, Hb, add_log_app.
Qed.

(** A [log_only] computation behaves in every world as it does in the initial
    one. *)
Lemma log_only_run {A : Type} (c : M A) (st : State) :
  log_only c ->
  c st = match c initial_state with
         | Normal a s0 => Normal a (add_log (log s0) st)
         | Raised e s0 => Raised e (add_log (log s0) st)
         end.
Proof. intros [(a & l & Hc) | (e & l & Hc)]; by rewrite !Hc. Qed.

Ltac log_only_step :=
  first
    [ apply log_only_ret | apply log_only_raise | apply log_only_lift
    | apply log_only_emit
    | apply log_only_try; [| intros ?]
    | apply log_only_bind; [| intros ?]
    | match goal with
      | |- log_only (if ?b then _ else _) => destruct b
      | |- log_only (match ?x with _ => _ end) => destruct x
      end ].

(** ** [preprocess_image] and [predict_image] only log *)

Lemma preprocess_image_log_only (env : Env) (p : string) :
  log_only (preprocess_image env p).
Proof. unfold preprocess_image, showerror. repeat log_only_step. Qed.

Lemma predict_image_log_only (env : Env) (p : string) :
  log_only (predict_image env p).
Proof.
  unfold predict_image.
  apply log_only_bind; [apply preprocess_image_log_only | intros ?].
  repeat log_only_step.
Qed.

(** [preprocess_image] catches every exception of its body: it always
    returns. *)
Lemma preprocess_image_returns (env : Env) (p : string) (st : State) :
  exists v st', preprocess_image env p st = Normal v st'.
Proof.
  unfold preprocess_image, try_except.
  match goal with |- context [match ?c st with _ => _ end] => destruct (c st) end;
    eauto.
Qed.

Lemma preprocess_image_unreadable (env : Env) (p : string) (st : State) :
  cv2_imread env p = None ->
  preprocess_image env p st =
  Normal None
    (add_log [EImread p;
              EShowError "Image Error"
                (image_error_message p (ValueError "Cannot read image"))] st).
Proof.
  intros H. unfold preprocess_image. unfold_monad. rewrite H. simpl.
  by rewrite add_log_app.
Qed.

Lemma predict_image_skips (env : Env) (p : string) (st st' : State) :
  preprocess_image env p st = Normal None st' ->
  predict_image env p st = Normal (None, None) st'.
Proof. intros H. unfold predict_image, mbind, M_bind. by rewrite H. Qed.

Lemma predict_image_model_raises (env : Env) (p : string) (st st1 : State)
    (t : tensor) (e : exn) :
  preprocess_image env p st = Normal (Some t) st1 ->
  model_predict env t = Exc e ->
  predict_image env p st = Raised e (add_log [EModelPredict] st1).
Proof.
  intros H He. unfold predict_image. unfold_monad. rewrite H. simpl.
  by rewrite He.
Qed.

(** ** [np.argmax]: the first index that holds the maximum *)

Lemma argmax_from_spec (l : list Q) :
  forall (best_i : nat) (best : Q) (i : nat),
    (argmax_from best_i best i l = best_i /\
     forall j y, l !! j = Some y -> (y <= best)%Q) \/
    (exists k x,
        argmax_from best_i best i l = i + k /\ l !! k = Some x /\
        (best < x)%Q /\
        (forall j y, l !! j = Some y -> (y <= x)%Q) /\
        (forall j y, j < k -> l !! j = Some y -> (y < x)%Q)).
Proof.
  induction l as [|x r IH]; intros best_i best i; simpl.
  - left. split; [reflexivity | intros j y Hj; by rewrite lookup_nil in Hj].
  - destruct (Qle_bool x best) eqn:Hx.
    + apply Qle_bool_iff in Hx.
      destruct (IH best_i best (S i)) as [[Hr Hall] | (k & x' & Hr & Hk & Hlt & Hall & Hfirst)].
      * left. split; [exact Hr |].
        intros [|j] y Hj; simpl in Hj; [by inversion Hj; subst | eauto].
      * right. exists (S k), x'. repeat split.
        -- rewrite Hr. lia.
        -- exact Hk.
        -- exact Hlt.
        -- intros [|j] y Hj; simpl in Hj; [| eauto].
           inversion Hj; subst. apply Qlt_le_weak. eapply Qle_lt_trans; eauto.
        -- intros [|j] y Hjk Hj; simpl in Hj.
           ++ inversion Hj; subst. eapply Qle_lt_trans; eauto.
           ++ apply (Hfirst j y); [lia | exact Hj].
    + assert (Hbx : (best < x)%Q).
      { apply Qnot_le_lt. intros Hle. apply Qle_bool_iff in Hle. congruence. }
      right.
      destruct (IH i x (S i)) as [[Hr Hall] | (k & x' & Hr & Hk & Hlt & Hall & Hfirst)].
      * exists 0, x. repeat split.
        -- rewrite Hr. lia.
        -- exact Hbx.
        -- intros [|j] y Hj; simpl in Hj; [| eauto].
           inversion Hj; subst. apply Qle_refl.
        -- intros j y Hj0. lia.
      * exists (S k), x'. repeat split.
        -- rewrite Hr. lia.
        -- exact Hk.
        -- eapply Qlt_trans; eauto.
        -- intros [|j] y Hj; simpl in Hj; [| eauto].
           inversion Hj; subst. by apply Qlt_le_weak.
        -- intros [|j] y Hjk Hj; simpl in Hj.
           ++ by inversion Hj; subst.
           ++ apply (Hfirst j y); [lia | exact Hj].
Qed.

Lemma np_argmax_spec (l : list Q) :
  l <> [] ->
  exists idx pr,
    np_argmax l = Ret idx /\ l !! idx = Some pr /\
    (forall j y, l !! j = Some y -> (y <= pr)%Q) /\
    (forall j y, j < idx -> l !! j = Some y -> (y < pr)%Q).
Proof.
  destruct l as [|x r]; [congruence | intros _]. simpl.
  destruct (argmax_from_spec r 0 x 1) as [[Hr Hall] | (k & x' & Hr & Hk & Hlt & Hall & Hfirst)].
  - exists 0, x. rewrite Hr. repeat split.
    + intros [|j] y Hj; simpl in Hj; [| eauto].
      inversion Hj; subst. apply Qle_refl.
    + intros j y Hj0. lia.
  - exists (S k), x'. rewrite Hr. repeat split.
    + exact Hk.
    + intros [|j] y Hj; simpl in Hj; [| eauto].
      inversion Hj; subst. by apply Qlt_le_weak.
    + intros [|j] y Hjk Hj; simpl in Hj.
      * by inversion Hj; subst.
      * apply (Hfirst j y); [lia | exact Hj].
Qed.

(** C2.  When the model answers a decoded image with a vector of four scores in
    [0,1], [predict_image] returns the label at the position of the largest
    score, the lowest position if the largest score occurs more than once, with
    that score times 100; the label is one of [CLASS_NAMES] and the confidence
    lies in [0,100]. *)
Theorem predict_image_first_max (env : Env) (p : string) (st st1 : State)
    (t : tensor) (preds : list Q) :
  preprocess_image env p st = Normal (Some t) st1 ->
  model_predict env t = Ret [preds] ->
  length preds = 4 ->
  (forall j q, preds !! j = Some q -> (0 <= q <= 1)%Q) ->
  exists idx label pr,
    predict_image env p st =
      Normal (Some label, Some (pr * 100)%Q) (add_log [EModelPredict] st1) /\
    preds !! idx = Some pr /\
    CLASS_NAMES !! idx = Some label /\
    (forall j q, preds !! j = Some q -> (q <= pr)%Q) /\
    (forall j q, j < idx -> preds !! j = Some q -> (q < pr)%Q) /\
    In label CLASS_NAMES /\
    (0 <= pr * 100 <= 100)%Q.
Proof.
  intros Hpre Hmodel Hlen Hrange.
  destruct (np_argmax_spec preds) as (idx & pr & Harg & Hidx & Hmax & Hfirst).
  { intros ->. discriminate. }
  assert (Hlt : idx < 4).
  { rewrite <- Hlen. eapply lookup_lt_Some; eauto. }
  destruct (lookup_lt_is_Some_2 CLASS_NAMES idx) as [label Hlabel]; [simpl; lia |].
  exists idx, label, pr. repeat split; auto.
  - unfold predict_image. unfold_monad. rewrite Hpre. simpl.
    rewrite Hmodel. simpl. rewrite Harg. unfold_monad. simpl.
    unfold index. rewrite Hlabel. unfold_monad. simpl. by rewrite Hidx.
  - apply list_elem_of_In. eapply list_elem_of_lookup_2; eauto.
  - destruct (Hrange idx pr Hidx) as [H0 _].
    change 0%Q with (0 * 100)%Q. apply Qmult_le_compat_r; [exact H0 | discriminate].
  - destruct (Hrange idx pr Hidx) as [_ H1].
    change 100%Q with (1 * 100)%Q at 2. apply Qmult_le_compat_r; [exact H1 | discriminate].
Qed.

(** ** The batch loop *)

Lemma batch_predict_unfold (env : Env) (paths : list string) (st : State) :
  paths <> [] ->
  batch_predict env paths st =
  match batch_loop env 1 paths [] (batch_start paths st) with
  | Normal results st1 => Normal tt (batch_finish env st results st1)
  | Raised e st1 => Raised e st1
  end.
Proof.
  intros Hne. destruct paths as [|p0 rest]; [congruence | clear Hne].
  unfold batch_predict, makedirs_exist_ok, listbox_delete_all, open_w, writerow,
    writerows, file_append.
  unfold_monad. cbn beta iota.
  match goal with
  | |- context [batch_loop env 1 (p0 :: rest) [] ?s] =>
      replace s with (batch_start (p0 :: rest) st)
  end.
  2:{ unfold batch_start, add_log, set_log; simpl. by rewrite <- app_assoc. }
  destruct (batch_loop env 1 (p0 :: rest) [] _) as [results st1 | e st1];
    [| reflexivity].
  unfold emit, batch_finish, batch_csv_file, batch_timestamp, add_log, set_log,
    set_files; simpl.
  rewrite <- app_assoc. simpl.
  rewrite !lookup_insert_eq. simpl. rewrite !insert_insert_eq. reflexivity.
Qed.

Lemma batch_body_run (env : Env) (i : nat) (p : string)
    (results : list (list string)) (st : State) :
  batch_body env i p results st =
  match predict_image env p initial_state with
  | Normal r s0 => batch_on_result env i p results r (add_log (log s0) st)
  | Raised e s0 => Raised e (add_log (log s0) st)
  end.
Proof.
  unfold batch_body, mbind, M_bind.
  rewrite (log_only_run _ st (predict_image_log_only env p)).
  by destruct (predict_image env p initial_state).
Qed.

Lemma batch_body_unreadable (env : Env) (i : nat) (p : string)
    (results : list (list string)) (st : State) :
  cv2_imread env p = None ->
  batch_body env i p results st =
  Normal results
    (add_log [EImread p;
              EShowError "Image Error"
                (image_error_message p (ValueError "Cannot read image"))] st).
Proof.
  intros H. unfold batch_body, mbind, M_bind.
  by rewrite (predict_image_skips _ _ _ _ (preprocess_image_unreadable env p st H)).
Qed.

(** The loop body leaves the file system and the bound of the progress bar
    alone, and either leaves the progress value or sets it to [i]. *)
Lemma batch_body_frame (env : Env) (i : nat) (p : string)
    (results : list (list string)) (st : State) :
  let st' := final_state (batch_body env i p results st) in
  progress_maximum st' = progress_maximum st /\
  files st' = files st /\
  dirs st' = dirs st /\
  (progress_value st' = progress_value st \/ progress_value st' = i).
Proof.
  rewrite batch_body_run.
  destruct (predict_image env p initial_state) as [[[label|] conf] s0 | e s0];
    simpl; auto.
  destruct conf as [c|]; unfold_monad; simpl; auto.
  unfold listbox_insert_end, listbox_itemconfig, update. simpl.
  match goal with |- context [if ?b then _ else _] => destruct b end;
    simpl; auto.
Qed.

(** When the loop body returns, it has either skipped the file or added one
    row and one list-box line, with [i - 1] an index of the list box. *)
Lemma batch_body_normal (env : Env) (i : nat) (p : string)
    (results r : list (list string)) (st st' : State) :
  batch_body env i p results st = Normal r st' ->
  (r = results /\ listbox st' = listbox st /\
   progress_value st' = progress_value st) \/
  (exists row, r = results ++ [row] /\
     length (listbox st') = S (length (listbox st)) /\
     progress_value st' = i /\
     (Z.of_nat i - 1 < Z.of_nat (S (length (listbox st))))%Z).
Proof.
  rewrite batch_body_run.
  destruct (predict_image env p initial_state) as [[[label|] conf] s0 | e s0];
    simpl; [| | discriminate].
  2:{ unfold_monad. intros [= <- <-]. left. auto. }
  destruct conf as [c|]; unfold_monad; simpl; [| discriminate].
  unfold listbox_insert_end, listbox_itemconfig, update. simpl.
  rewrite length_app. simpl.
  match goal with |- context [if ?b then _ else _] => destruct b eqn:Hb end;
    simpl; [| discriminate].
  intros [= <- <-]. right. eexists. split; [reflexivity |]. simpl.
  rewrite length_alter, length_app. simpl.
  apply andb_true_iff in Hb as [_ Hb]. apply Z.ltb_lt in Hb.
  repeat split; lia.
Qed.

Lemma batch_loop_app (env : Env) (l1 l2 : list string) :
  forall (i : nat) (results : list (list string)) (st : State),
    batch_loop env i (l1 ++ l2) results st =
    match batch_loop env i l1 results st with
    | Normal r st' => batch_loop env (i + length l1) l2 r st'
    | Raised e st' => Raised e st'
    end.
Proof.
  induction l1 as [|p l1 IH]; intros i results st; simpl.
  - unfold mret, M_ret. by rewrite Nat.add_0_r.
  - unfold mbind, M_bind.
    destruct (batch_body env i p results st) as [r st' | e st']; [| reflexivity].
    rewrite IH. by replace (S i + length l1) with (i + S (length l1)) by lia.
Qed.

(** Throughout the loop the file system and the bound of the progress bar stay
    as they are; the progress value is either untouched or the position of some
    file of the list. *)
Lemma batch_loop_frame (env : Env) (paths : list string) :
  forall (i : nat) (results : list (list string)) (st : State),
    let st' := final_state (batch_loop env i paths results st) in
    progress_maximum st' = progress_maximum st /\
    files st' = files st /\
    dirs st' = dirs st /\
    (progress_value st' = progress_value st \/
     i <= progress_value st' < i + length paths).
Proof.
  induction paths as [|p paths IH]; intros i results st; simpl; [auto |].
  unfold mbind, M_bind.
  pose proof (batch_body_frame env i p results st) as (Hm & Hf & Hd & Hv).
  destruct (batch_body env i p results st) as [r st1 | e st1]; simpl in *.
  - destruct (IH (S i) r st1) as (Hm' & Hf' & Hd' & Hv').
    repeat split; try congruence.
    destruct Hv' as [Hv' | Hv']; [rewrite Hv' | right; lia].
    destruct Hv as [Hv | Hv]; [by left | right; lia].
  - repeat split; auto. destruct Hv as [Hv | Hv]; [by left | right; lia].
Qed.

Lemma batch_body_skipped (env : Env) (i : nat) (p : string)
    (results : list (list string)) (st : State) :
  skipped env p = true ->
  exists l, batch_body env i p results st = Normal results (add_log l st).
Proof.
  rewrite batch_body_run. unfold skipped.
  destruct (predict_image env p initial_state) as [[[label|] conf] s0 | e s0];
    try discriminate.
  intros _. simpl. eauto.
Qed.

Lemma preprocess_fails_skipped (env : Env) (p : string) (sp : State) :
  preprocess_image env p initial_state = Normal None sp ->
  skipped env p = true.
Proof.
  intros H. unfold skipped. by rewrite (predict_image_skips _ _ _ _ H).
Qed.

Lemma unreadable_skipped (env : Env) (p : string) :
  cv2_imread env p = None -> skipped env p = true.
Proof.
  intros H. eapply preprocess_fails_skipped.
  by apply preprocess_image_unreadable.
Qed.

(** When the loop returns, the list box has grown by as many lines as
    [results] has by rows, and no skipped file has added a line. *)
Lemma batch_loop_normal (env : Env) (paths : list string) :
  forall (i : nat) (results r : list (list string)) (st st' : State),
    batch_loop env i paths results st = Normal r st' ->
    length r + length (listbox st) = length results + length (listbox st') /\
    length (listbox st') + length (List.filter (skipped env) paths)
      <= length (listbox st) + length paths.
Proof.
  induction paths as [|p paths IH]; intros i results r st st'; simpl.
  - intros [= <- <-]. lia.
  - unfold mbind, M_bind.
    destruct (batch_body env i p results st) as [r1 st1 | e st1] eqn:Hbody;
      [| discriminate].
    intros Hloop. destruct (IH _ _ _ _ _ Hloop) as [Hlen Hcount].
    destruct (skipped env p) eqn:Hskip; simpl.
    + destruct (batch_body_skipped env i p results st Hskip) as [l Hl].
      rewrite Hl in Hbody. injection Hbody as <- <-. simpl in *. lia.
    + apply batch_body_normal in Hbody
        as [(-> & Hl & _) | (row & -> & Hl & _)];
        [rewrite Hl in * | rewrite length_app in Hlen; simpl in Hlen]; lia.
Qed.

Lemma skipped_count (env : Env) (p : string) (l : list string) :
  In p l -> skipped env p = true ->
  1 <= length (List.filter (skipped env) l).
Proof.
  intros Hin Hskip.
  assert (Hp : In p (List.filter (skipped env) l)).
  { apply filter_In. by split. }
  destruct (List.filter (skipped env) l); [destruct Hp | simpl; lia].
Qed.

(** A classified file whose position is past the end of the list box makes
    [itemconfig] fail, after its line has been inserted. *)
Lemma batch_body_out_of_range (env : Env) (i : nat) (q : string)
    (results : list (list string)) (st s0 : State) (label : string) (conf : Q) :
  predict_image env q initial_state = Normal (Some label, Some conf) s0 ->
  (Z.of_nat (S (length (listbox st))) <= Z.of_nat i - 1)%Z ->
  batch_body env i q results st =
  Raised
    (TclError ("item number " +:+ dq +:+ dec (Z.of_nat i - 1) +:+ dq
                 +:+ " out of range"))
    (set_listbox
       (fun l => l ++ [(basename q +:+ " → " +:+ label +:+ " ("
                          +:+ format_2f conf +:+ "%)", None)])
       (add_log (log s0) st)).
Proof.
  intros Hq Hidx. rewrite batch_body_run, Hq. simpl.
  unfold_monad. simpl. unfold listbox_insert_end, listbox_itemconfig, update.
  simpl. rewrite length_app. simpl.
  replace (Z.of_nat i - 1 <? Z.of_nat (length (listbox st) + 1))%Z with false.
  - by rewrite andb_false_r.
  - symmetry. apply Z.ltb_ge. lia.
Qed.

(** A classified file whose position is the next line of the list box gets
    its row, its line and its colour, and the progress bar moves to it. *)
Lemma batch_body_classified (env : Env) (i : nat) (p : string)
    (results : list (list string)) (st : State) (row : list string) :
  report_row env p = Some row ->
  i = S (length (listbox st)) ->
  exists st',
    batch_body env i p results st = Normal (results ++ [row]) st' /\
    length (listbox st') = i /\
    progress_value st' = i.
Proof.
  unfold report_row. intros Hrow ->. rewrite batch_body_run.
  destruct (predict_image env p initial_state) as [[[label|] [conf|]] s0 | e s0];
    try discriminate.
  injection Hrow as <-. simpl. unfold_monad. simpl.
  unfold listbox_insert_end, listbox_itemconfig, update. simpl.
  rewrite length_app. simpl.
  replace ((0 <=? Z.of_nat (S (length (listbox st))) - 1)
           && (Z.of_nat (S (length (listbox st))) - 1
               <? Z.of_nat (length (listbox st) + 1)))%Z with true.
  - eexists. split; [reflexivity |]. simpl.
    rewrite length_alter, length_app. simpl. lia.
  - symmetry. apply andb_true_iff. split; [apply Z.leb_le | apply Z.ltb_lt]; lia.
Qed.

Lemma batch_loop_classified (env : Env) (good : list string) :
  forall (i : nat) (results : list (list string)) (st : State),
    Forall (fun p => is_Some (report_row env p)) good ->
    i = S (length (listbox st)) ->
    exists st',
      batch_loop env i good results st =
        Normal (results ++ omap (report_row env) good) st' /\
      length (listbox st') = length (listbox st) + length good /\
      (good <> [] -> progress_value st' = length (listbox st')).
Proof.
  induction good as [|p good IH]; intros i results st Hall Hi; simpl.
  - exists st. rewrite app_nil_r. repeat split; [lia | congruence].
  - inversion Hall as [|? ? [row Hrow] Hrest]; subst.
    destruct (batch_body_classified env _ p results st row Hrow eq_refl)
      as (st1 & Hbody & Hlen & Hval).
    unfold mbind, M_bind. rewrite Hbody, Hrow.
    destruct (IH (S (S (length (listbox st)))) (results ++ [row]) st1 Hrest)
      as (st' & Hloop & Hlen' & Hval'); [lia |].
    exists st'. rewrite Hloop, <- app_assoc. repeat split; [lia |].
    intros _. destruct good as [|p' good]; [| by apply Hval'].
    simpl in Hloop. injection Hloop as _ <-. lia.
Qed.

Lemma batch_loop_skipped (env : Env) (bad : list string) :
  forall (i : nat) (results : list (list string)) (st : State),
    Forall (fun p => skipped env p = true) bad ->
    exists l, batch_loop env i bad results st = Normal results (add_log l st).
Proof.
  induction bad as [|p bad IH]; intros i results st Hall; simpl.
  - exists []. by rewrite add_log_nil.
  - inversion Hall as [|? ? Hskip Hrest]; subst.
    destruct (batch_body_skipped env i p results st Hskip) as [l Hl].
    unfold mbind, M_bind. rewrite Hl.
    destruct (IH (S i) results (add_log l st) Hrest) as [l' Hl'].
    exists (l ++ l'). by rewrite Hl', add_log_app.
Qed.

Lemma omap_report_row_skipped (env : Env) (bad : list string) :
  Forall (fun p => skipped env p = true) bad ->
  omap (report_row env) bad = [].
Proof.
  induction 1 as [|p bad Hskip _ IH]; [reflexivity |]. simpl.
  unfold skipped in Hskip. unfold report_row at 1.
  destruct (predict_image env p initial_state) as [[[label|] conf] s0 | e s0];
    try discriminate.
  exact IH.
Qed.

(** X9.  When the files that are classified all come before the files that
    are skipped, the run completes and the report holds the header and one row
    per classified file, in the order of submission (the header alone if there
    is none); the progress bar stops at the number of classified files. *)
Lemma batch_predict_report_rows (env : Env) (good bad : list string) (st : State) :
  good ++ bad <> [] ->
  Forall (fun p => is_Some (report_row env p)) good ->
  Forall (fun p => skipped env p = true) bad ->
  exists st',
    batch_predict env (good ++ bad) st = Normal tt st' /\
    files st' =
      <[batch_csv_file env st := csv_header :: omap (report_row env) (good ++ bad)]>
        (files st) /\
    length (omap (report_row env) (good ++ bad)) = length good /\
    progress_value st' = length good /\
    progress_maximum st' = length (good ++ bad).
Proof.
  intros Hne Hgood Hbad. rewrite batch_predict_unfold by exact Hne.
  rewrite batch_loop_app.
  destruct (batch_loop_classified env good 1 [] (batch_start (good ++ bad) st)
              Hgood eq_refl) as (st1 & Hloop & Hlen & Hval).
  rewrite Hloop. simpl app.
  destruct (batch_loop_skipped env bad (1 + length good)
              (omap (report_row env) good) st1 Hbad) as [l Hl].
  rewrite Hl. eexists. split; [reflexivity |].
  pose proof (batch_loop_frame env good 1 [] (batch_start (good ++ bad) st))
    as (Hm & Hf & _ & Hv).
  rewrite Hloop in Hm, Hf, Hv. simpl in Hm, Hf, Hv, Hlen.
  rewrite omap_app, (omap_report_row_skipped env bad Hbad), app_nil_r.
  simpl. rewrite Hf, Hm. repeat split.
  - clear -Hgood. induction Hgood as [|p good [row Hrow] _ IH]; [reflexivity |].
    simpl. rewrite Hrow. simpl. f_equal. exact IH.
  - destruct good as [|p good]; [| rewrite Hval by discriminate; lia].
    simpl in Hloop. by injection Hloop as <-.
Qed.

(** C3.  A file that does not decode at the end of the list leaves the progress
    bar below its maximum: the bound is the number of files, the value stays at
    most the position of the last file that was classified. *)
Theorem batch_predict_progress_short (env : Env) (paths : list string)
    (p : string) (st : State) :
  cv2_imread env p = None ->
  let st' := final_state (batch_predict env (paths ++ [p]) st) in
  progress_maximum st' = length (paths ++ [p]) /\
  progress_value st' < progress_maximum st'.
Proof.
  intros Hread. rewrite batch_predict_unfold by (by destruct paths).
  rewrite batch_loop_app.
  pose proof (batch_loop_frame env paths 1 [] (batch_start (paths ++ [p]) st))
    as (Hm & _ & _ & Hv).
  simpl in Hm, Hv. rewrite length_app in *. simpl in *.
  destruct (batch_loop env 1 paths [] _) as [r st1 | e st1]; simpl in *.
  - unfold mbind, M_bind. rewrite (batch_body_unreadable _ _ _ _ _ Hread).
    simpl. lia.
  - lia.
Qed.

(** C5.  When the model refuses the tensor of a decoded image, [predict_image]
    raises instead of returning, and a batch that contains the image is
    abandoned: [batch_predict] raises and the file system is as before, no
    report having been written. *)
Theorem batch_predict_aborts_on_model_error (env : Env) (pre post : list string)
    (p : string) (st s0 : State) (t : tensor) (e : exn) :
  preprocess_image env p initial_state = Normal (Some t) s0 ->
  model_predict env t = Exc e ->
  (forall st1,
      predict_image env p st1 =
      Raised e (add_log (log s0 ++ [EModelPredict]) st1)) /\
  exists e' st',
    batch_predict env (pre ++ p :: post) st = Raised e' st' /\
    files st' = files st.
Proof.
  intros Hpre Hmodel.
  pose proof (predict_image_model_raises _ _ _ _ _ _ Hpre Hmodel) as Hp.
  assert (Hall : forall st1,
             predict_image env p st1 =
             Raised e (add_log (log s0 ++ [EModelPredict]) st1)).
  { intros st1. rewrite (log_only_run _ st1 (predict_image_log_only env p)).
    by rewrite Hp. }
  split; [exact Hall |].
  rewrite batch_predict_unfold by (by destruct pre).
  pose proof (batch_loop_frame env (pre ++ p :: post) 1 []
                (batch_start (pre ++ p :: post) st)) as (_ & Hf & _).
  simpl in Hf.
  assert (Hr : exists e' st',
             batch_loop env 1 (pre ++ p :: post) []
               (batch_start (pre ++ p :: post) st) = Raised e' st').
  { rewrite batch_loop_app.
    destruct (batch_loop env 1 pre [] _) as [r st1 | e1 st1]; [| eauto].
    simpl. unfold mbind, M_bind, batch_body, mbind, M_bind.
    rewrite Hall. eauto. }
  destruct Hr as (e' & st' & Hr). rewrite Hr in *. eauto.
Qed.

(** C6.  When a file that does not decode comes before a file that is
    classified, [batch_predict] raises and the file system is as before: no
    report is written, neither the header nor the rows of the files classified
    so far. *)
Theorem batch_predict_no_report_after_skip (env : Env) (pre post : list string)
    (p q : string) (st s0 : State) (label : string) (conf : Q) :
  In p pre ->
  cv2_imread env p = None ->
  predict_image env q initial_state = Normal (Some label, Some conf) s0 ->
  exists e st',
    batch_predict env (pre ++ q :: post) st = Raised e st' /\
    files st' = files st.
Proof.
  intros Hin Hread Hq.
  rewrite batch_predict_unfold by (by destruct pre).
  pose proof (batch_loop_frame env (pre ++ q :: post) 1 []
                (batch_start (pre ++ q :: post) st)) as (_ & Hf & _).
  simpl in Hf.
  assert (Hr : exists e' st',
             batch_loop env 1 (pre ++ q :: post) []
               (batch_start (pre ++ q :: post) st) = Raised e' st').
  { rewrite batch_loop_app.
    destruct (batch_loop env 1 pre [] _) as [r st1 | e1 st1] eqn:Hloop; [| eauto].
    apply batch_loop_normal in Hloop as [_ Hcount]. simpl in Hcount.
    pose proof (skipped_count env p pre Hin (unreadable_skipped env p Hread)).
    simpl. unfold mbind, M_bind.
    rewrite (batch_body_out_of_range _ _ _ _ _ _ _ _ Hq) by lia. eauto. }
  destruct Hr as (e' & st' & Hr). rewrite Hr in *. eauto.
Qed.

(** C10.  The loop colours the line of the [i]-th file at index [i - 1], while
    the list box holds one line per classified file.  So when the loop reaches
    a classified file after a file whose preprocessing failed, the index is at
    least the number of lines, the new one included: it names no line, Tk
    refuses it and the loop ends there. *)
Theorem itemconfig_index_past_end (env : Env) (pre post : list string)
    (p q : string) (results : list (list string)) (st st1 sp s0 : State)
    (label : string) (conf : Q) :
  In p pre ->
  preprocess_image env p initial_state = Normal None sp ->
  predict_image env q initial_state = Normal (Some label, Some conf) s0 ->
  listbox st = [] ->
  batch_loop env 1 pre [] st = Normal results st1 ->
  let i := S (length pre) in
  let idx := (Z.of_nat i - 1)%Z in
  let refused :=
    TclError ("item number " +:+ dq +:+ dec idx +:+ dq +:+ " out of range") in
  exists st_call,
    length (listbox st1) = length results /\
    length (listbox st_call) = S (length results) /\
    (Z.of_nat (length (listbox st_call)) <= idx)%Z /\
    batch_body env i q results st1 = Raised refused st_call /\
    batch_loop env 1 (pre ++ q :: post) [] st = Raised refused st_call.
Proof.
  intros Hin Hread Hq Hempty Hloop i idx refused. subst i idx refused.
  rewrite batch_loop_app, Hloop. simpl batch_loop. unfold mbind, M_bind.
  apply batch_loop_normal in Hloop as [Hlen Hcount].
  rewrite Hempty in *. simpl in Hlen, Hcount.
  pose proof (skipped_count env p pre Hin (preprocess_fails_skipped env p sp Hread)).
  rewrite (batch_body_out_of_range _ _ _ _ _ _ _ _ Hq) by lia.
  eexists. split; [lia |].
  split; [| split; [| split; reflexivity]];
    simpl; rewrite length_app; simpl; lia.
Qed.

(** ** Failures of [preprocess_image] seen from the callers *)

Lemma upload_predict_single_skips (env : Env) (p : string) (st st' : State) :
  p <> "" ->
  preprocess_image env p st = Normal None st' ->
  upload_predict_single env p st = Normal tt st'.
Proof.
  intros Hne H. unfold upload_predict_single.
  rewrite bool_decide_eq_false_2 by exact Hne.
  unfold mbind, M_bind. by rewrite (predict_image_skips _ _ _ _ H).
Qed.


(** C4, as the program has it.  A file that does not decode is skipped and
    the batch goes on with the next file: the loop continues with the results
    it had, and neither the list of results nor any file has changed.  But
    the failure is not silent: the world in which the loop continues has seen
    the read of the file and the dialog [Image Error] that [preprocess_image]
    shows, once for this file, the same dialog the single-image handler leaves
    behind, which returns without displaying anything. *)
Theorem decode_failure_notified_and_skipped (env : Env) (p : string) (st : State) :
  cv2_imread env p = None ->
  let dialog :=
    EShowError "Image Error"
      (image_error_message p (ValueError "Cannot read image")) in
  (forall i rest results,
      exists st',
        batch_loop env i (p :: rest) results st =
        batch_loop env (S i) rest results st' /\
        log st' = log st ++ [EImread p; dialog] /\
        listbox st' = listbox st /\ files st' = files st) /\
  (p <> "" ->
   exists st',
     upload_predict_single env p st = Normal tt st' /\
     log st' = log st ++ [EImread p; dialog] /\
     image_label st' = image_label st /\ result_label st' = result_label st).
Proof.
  intros H dialog. split.
  - intros i rest results.
    exists (add_log [EImread p; dialog] st).
    split; [| by repeat split].
    simpl. unfold mbind, M_bind. by rewrite batch_body_unreadable.
  - intros Hne. exists (add_log [EImread p; dialog] st).
    split; [| by repeat split].
    apply upload_predict_single_skips; [exact Hne |].
    by apply preprocess_image_unreadable.
Qed.

(** ** The report file and its name *)

Lemma batch_body_log (env : Env) (i : nat) (p : string)
    (results : list (list string)) (st : State) :
  exists l, log (final_state (batch_body env i p results st)) = log st ++ l.
Proof.
  rewrite batch_body_run.
  destruct (predict_image env p initial_state) as [[[label|] conf] s0 | e s0];
    simpl; eauto.
  destruct conf as [c|]; unfold_monad; simpl; eauto.
  unfold listbox_insert_end, listbox_itemconfig, update. simpl.
  match goal with |- context [if ?b then _ else _] => destruct b end;
    simpl; eauto.
  rewrite <- app_assoc. eauto.
Qed.

Lemma batch_loop_log (env : Env) (paths : list string) :
  forall (i : nat) (results : list (list string)) (st : State),
    exists l, log (final_state (batch_loop env i paths results st)) = log st ++ l.
Proof.
  induction paths as [|p paths IH]; intros i results st; simpl.
  - exists []. by rewrite app_nil_r.
  - unfold mbind, M_bind.
    destruct (batch_body_log env i p results st) as [l Hl].
    destruct (batch_body env i p results st) as [r st1 | e st1]; simpl in *.
    + destruct (IH (S i) r st1) as [l' Hl']. rewrite Hl', Hl, <- app_assoc. eauto.
    + eauto.
Qed.

Lemma list_ascii_of_string_app (s1 s2 : string) :
  String.list_ascii_of_string (s1 +:+ s2) =
  String.list_ascii_of_string s1 ++ String.list_ascii_of_string s2.
Proof. induction s1 as [|c s1 IH]; simpl; [reflexivity | by rewrite IH]. Qed.

Lemma zpad_digits_below (w : nat) (bound : Z) :
  forallb (fun n => digits_n w (zpad w (Z.of_nat n))) (seq 0 (Z.to_nat bound))
    = true ->
  forall z, (0 <= z < bound)%Z -> digits_n w (zpad w z) = true.
Proof.
  intros Hall z Hz. rewrite forallb_forall in Hall.
  rewrite <- (Z2Nat.id z) by lia. apply Hall, in_seq. lia.
Qed.

Lemma zpad2_digits (z : Z) : (0 <= z <= 99)%Z -> digits_n 2 (zpad 2 z) = true.
Proof.
  intros Hz. apply (zpad_digits_below 2 100); [vm_compute; reflexivity | lia].
Qed.

Lemma zpad4_digits (z : Z) : (0 <= z <= 9999)%Z -> digits_n 4 (zpad 4 z) = true.
Proof.
  intros Hz. apply (zpad_digits_below 4 10000); [vm_compute; reflexivity | lia].
Qed.

Lemma digits_n_2 (s : string) :
  digits_n 2 s = true ->
  exists a b, String.list_ascii_of_string s = [a; b] /\
              is_digit a = true /\ is_digit b = true.
Proof.
  unfold digits_n, all_digits.
  destruct (String.list_ascii_of_string s) as [|a [|b [|c l]]]; simpl;
    try discriminate.
  intros H. exists a, b.
  destruct (is_digit a), (is_digit b); try discriminate. auto.
Qed.

Lemma digits_n_4 (s : string) :
  digits_n 4 s = true ->
  exists a b c d, String.list_ascii_of_string s = [a; b; c; d] /\
                  is_digit a = true /\ is_digit b = true /\
                  is_digit c = true /\ is_digit d = true.
Proof.
  unfold digits_n, all_digits.
  destruct (String.list_ascii_of_string s) as [|a [|b [|c [|d [|e l]]]]]; simpl;
    try discriminate.
  intros H. exists a, b, c, d.
  destruct (is_digit a), (is_digit b), (is_digit c), (is_digit d);
    try discriminate. auto.
Qed.

Lemma strftime_is_timestamp (t : datetime) :
  valid_datetime t -> is_timestamp (strftime_Ymd_HMS t) = true.
Proof.
  intros (Hy & Hm & Hd & Hh & Hn & Hs).
  destruct (digits_n_4 _ (zpad4_digits (year t) ltac:(lia)))
    as (y1 & y2 & y3 & y4 & Ey & ? & ? & ? & ?).
  destruct (digits_n_2 _ (zpad2_digits (month t) ltac:(lia))) as (m1 & m2 & Em & ? & ?).
  destruct (digits_n_2 _ (zpad2_digits (day t) ltac:(lia))) as (d1 & d2 & Ed & ? & ?).
  destruct (digits_n_2 _ (zpad2_digits (hour t) ltac:(lia))) as (h1 & h2 & Eh & ? & ?).
  destruct (digits_n_2 _ (zpad2_digits (minute t) ltac:(lia))) as (n1 & n2 & En & ? & ?).
  destruct (digits_n_2 _ (zpad2_digits (second t) ltac:(lia))) as (s1 & s2 & Es & ? & ?).
  unfold is_timestamp, strftime_Ymd_HMS.
  rewrite !list_ascii_of_string_app, Ey, Em, Ed, Eh, En, Es. simpl.
  repeat match goal with H : is_digit _ = true |- _ => rewrite H; clear H end.
  reflexivity.
Qed.

Lemma save_folder_eq :
  save_folder = "C:\Users\USER\Desktop\DATASETS\XRAY\predictions".
Proof. vm_compute. reflexivity. Qed.

Lemma csv_file_eq (ts : string) :
  path_join save_folder (csv_name ts) =
  "C:\Users\USER\Desktop\DATASETS\XRAY\predictions\xray_predictions_"
    +:+ ts +:+ ".csv".
Proof. rewrite save_folder_eq. reflexivity. Qed.

(** C7, as the program has it.  In a run over a non-empty list the destination
    directory is created first (nothing changes if it exists), and the clock
    is read next, before the first image is read.  The report is written to
    the destination directory under the name [xray_predictions_] followed by
    that reading, as [YYYYMMDD_HHMMSS], and [.csv]. *)
Theorem batch_predict_report_name (env : Env) (paths : list string) (st : State) :
  paths <> [] ->
  valid_datetime (datetime_now env (log st ++ [EMakedirs save_folder])) ->
  let ts := strftime_Ymd_HMS (datetime_now env (log st ++ [EMakedirs save_folder])) in
  let csv_file :=
    "C:\Users\USER\Desktop\DATASETS\XRAY\predictions\xray_predictions_"
      +:+ ts +:+ ".csv" in
  let o := batch_predict env paths st in
  is_timestamp ts = true /\
  (exists l, log (final_state o) = log st ++ EMakedirs save_folder :: ENow :: l) /\
  save_folder ∈ dirs (final_state o) /\
  (save_folder ∈ dirs st -> dirs (final_state o) = dirs st) /\
  (forall st', o = Normal tt st' ->
     exists results l,
       files st' = <[csv_file := csv_header :: results]> (files st) /\
       log st' = l ++ [EOpenWrite csv_file;
                       EShowInfo "Batch Prediction"
                         ("Predictions completed!" +:+ nl +:+ "Saved to: "
                            +:+ csv_file)]).
Proof.
  intros Hne Hvalid ts csv_file o.
  split; [by apply strftime_is_timestamp |].
  subst o. rewrite batch_predict_unfold by exact Hne.
  pose proof (batch_loop_frame env paths 1 [] (batch_start paths st))
    as (_ & Hf & Hd & _).
  destruct (batch_loop_log env paths 1 [] (batch_start paths st)) as [l Hl].
  assert (Hcsv : batch_csv_file env st = csv_file).
  { unfold batch_csv_file, batch_timestamp. apply csv_file_eq. }
  simpl in Hf, Hd, Hl.
  destruct (batch_loop env 1 paths [] _) as [results st1 | e st1]; simpl in *.
  - rewrite Hl, Hd, Hcsv. repeat split.
    + rewrite <- !app_assoc. simpl. eauto.
    + apply elem_of_union_l. by apply elem_of_singleton.
    + intros Hin. apply subseteq_union_1_L. by apply singleton_subseteq_l.
    + intros st' [= <-]. exists results, (log st1).
      unfold batch_finish. rewrite Hcsv. simpl. rewrite Hf, <- app_assoc. done.
  - rewrite Hl, Hd. repeat split.
    + rewrite <- !app_assoc. simpl. eauto.
    + apply elem_of_union_l. by apply elem_of_singleton.
    + intros Hin. apply subseteq_union_1_L. by apply singleton_subseteq_l.
    + discriminate.
Qed.

(** ** The thumbnail and the banner *)

Lemma inject_Z_nonzero (z : Z) : (0 < z)%Z -> ~ inject_Z z == 0.
Proof.
  intros Hz H0. apply (Qeq_bool_neq (inject_Z z) 0); [| exact H0].
  destruct z; try lia. reflexivity.
Qed.

Lemma Qfloor_scale (a w h : Z) :
  (0 < h)%Z ->
  Qfloor (inject_Z a * (inject_Z w / inject_Z h)) = (a * w / h)%Z.
Proof.
  intros Hh. rewrite Zdiv_Qdiv. apply Qfloor_comp.
  rewrite inject_Z_mult. field. by apply inject_Z_nonzero.
Qed.

Lemma Qceiling_scale (a w h : Z) :
  (0 < h)%Z ->
  Qceiling (inject_Z a * (inject_Z w / inject_Z h)) = (- (- (a * w) / h))%Z.
Proof.
  intros Hh. unfold Qceiling. f_equal. rewrite Zdiv_Qdiv. apply Qfloor_comp.
  rewrite inject_Z_opp, inject_Z_mult. field. by apply inject_Z_nonzero.
Qed.

Lemma Qfloor_unscale (a w h : Z) :
  (0 < h)%Z -> (0 < w)%Z ->
  Qfloor (inject_Z a / (inject_Z w / inject_Z h)) = (a * h / w)%Z.
Proof.
  intros Hh Hw. rewrite Zdiv_Qdiv. apply Qfloor_comp.
  rewrite inject_Z_mult. field. split; by apply inject_Z_nonzero.
Qed.

Lemma Qceiling_unscale (a w h : Z) :
  (0 < h)%Z -> (0 < w)%Z ->
  Qceiling (inject_Z a / (inject_Z w / inject_Z h)) = (- (- (a * h) / w))%Z.
Proof.
  intros Hh Hw. unfold Qceiling. f_equal. rewrite Zdiv_Qdiv. apply Qfloor_comp.
  rewrite inject_Z_opp, inject_Z_mult. field. split; by apply inject_Z_nonzero.
Qed.

Lemma aspect_le_one (w h : Z) :
  (0 < h)%Z ->
  Qle_bool (inject_Z w / inject_Z h) (inject_Z 300 / inject_Z 300) = (w <=? h)%Z.
Proof.
  intros Hh. destruct h as [|hp|hp]; try lia.
  unfold Qle_bool. simpl. apply Bool.eq_iff_eq_true. rewrite !Z.leb_le. lia.
Qed.

Lemma thumbnail_size_300 (w h : Z) :
  (0 < w)%Z -> (0 < h)%Z ->
  match thumbnail_size w h 300 300 with
  | None => (w <= 300 /\ h <= 300)%Z
  | Some (w', h') =>
      (1 <= w' <= 300 /\ 1 <= h' <= 300 /\ w' <= w /\ h' <= h /\
       ((h' = 300 /\ Z.abs (w' * h - 300 * w) < h) \/
        (w' = 300 /\ Z.abs (h' * w - 300 * h) < w)))%Z
  end.
Proof.
  intros Hw Hh. unfold thumbnail_size.
  destruct ((w <=? 300)%Z && (h <=? 300)%Z) eqn:Hfit.
  { apply andb_true_iff in Hfit as [H1 H2]. lia. }
  apply andb_false_iff in Hfit.
  rewrite aspect_le_one by exact Hh.
  destruct (Z.leb_spec w h) as [Hwh | Hwh]; unfold round_aspect.
  - rewrite Qfloor_scale, Qceiling_scale by exact Hh.
    destruct (Qle_bool _ _); Z.div_mod_to_equations; nia.
  - rewrite Qfloor_unscale, Qceiling_unscale by assumption.
    destruct (Qle_bool _ _); Z.div_mod_to_equations; nia.
Qed.

Lemma thumbnail_300 (img : PILImage) :
  (0 < im_width img)%Z -> (0 < im_height img)%Z ->
  let img' := thumbnail 300 300 img in
  let w := im_width img in
  let h := im_height img in
  im_mode img' = im_mode img /\
  (1 <= im_width img' <= 300 /\ 1 <= im_height img' <= 300 /\
   im_width img' <= w /\ im_height img' <= h)%Z /\
  ((im_width img' = w /\ im_height img' = h) \/
   (im_height img' = 300 /\ Z.abs (im_width img' * h - 300 * w) < h) \/
   (im_width img' = 300 /\ Z.abs (im_height img' * w - 300 * h) < w))%Z /\
  exists ops, im_ops img' = im_ops img ++ ops /\ Forall is_raster_op ops.
Proof.
  intros Hw Hh. pose proof (thumbnail_size_300 _ _ Hw Hh) as Hsize.
  unfold thumbnail.
  destruct (thumbnail_size (im_width img) (im_height img) 300 300)
    as [[w' h'] |].
  - case_bool_decide as Hsame; simpl.
    + injection Hsame as <- <-.
      split; [done |]. split; [lia |]. split; [lia |].
      exists []. by rewrite app_nil_r.
    + split; [done |]. split; [lia |]. split; [lia |].
      exists [OpResize w' h']. split; [done |]. by repeat constructor.
  - simpl. split; [done |]. split; [lia |]. split; [lia |].
    exists []. by rewrite app_nil_r.
Qed.

(** ** The tensor built by [preprocess_image] *)

Lemma div255_range (v : Z) :
  (0 <= v <= 255)%Z -> (0 <= inject_Z v / 255 <= 1)%Q.
Proof.
  intros [H0 H1]. split.
  - apply Qle_shift_div_l; [reflexivity |].
    rewrite Qmult_0_l. change 0%Q with (inject_Z 0). by rewrite <- Zle_Qle.
  - apply Qle_shift_div_r; [reflexivity |].
    rewrite Qmult_1_l. change 255%Q with (inject_Z 255). by rewrite <- Zle_Qle.
Qed.

Lemma astype_float32_div255_range (img : ndarray) :
  Forall (fun v => (0 <= v <= 255)%Z) (data img) ->
  Forall (fun q => (0 <= q <= 1)%Q) (tdata (astype_float32_div255 img)).
Proof.
  intros H. unfold astype_float32_div255. simpl.
  induction H as [|v l Hv _ IH]; simpl; constructor; auto using div255_range.
Qed.

(** X2.  A grayscale image, decoded as a two-dimensional array or with one
    channel, is replicated to three channels before it is resized; it becomes
    a tensor of shape (1, H, W, 3) with values in [0,1], provided the resize
    answers with the size asked for and with 8-bit samples. *)
Lemma preprocess_image_gray (env : Env) (p : string) (st : State)
    (img rgb img' : ndarray) (h w : nat) :
  cv2_imread env p = Some img ->
  shape img = [h; w] \/ shape img = [h; w; 1] ->
  cvtColor_GRAY2RGB img = Ret rgb ->
  cv2_resize env rgb (IMG_W env) (IMG_H env) = Ret img' ->
  shape img' = [IMG_H env; IMG_W env; 3] ->
  Forall (fun v => (0 <= v <= 255)%Z) (data img') ->
  exists t,
    preprocess_image env p st = Normal (Some t) (add_log [EImread p] st) /\
    shape rgb = [h; w; 3] /\
    tshape t = [1; IMG_H env; IMG_W env; 3] /\
    Forall (fun q => (0 <= q <= 1)%Q) (tdata t).
Proof.
  intros Hread Hshape Hcvt Hresize Hshape' Hrange.
  exists (expand_dims0 (astype_float32_div255 img')).
  repeat split.
  - unfold preprocess_image. unfold_monad. rewrite Hread.
    destruct Hshape as [Hs | Hs]; rewrite Hs; simpl;
      rewrite Hcvt; simpl; by rewrite Hresize.
  - unfold cvtColor_GRAY2RGB in Hcvt.
    destruct Hshape as [Hs | Hs]; rewrite Hs in Hcvt; by injection Hcvt as <-.
  - simpl. by rewrite Hshape'.
  - by apply astype_float32_div255_range.
Qed.

(** X3.  A three-channel image is resized as it is and becomes a tensor of
    shape (1, H, W, 3) with values in [0,1], provided the resize answers with
    the size asked for and with 8-bit samples. *)
Lemma preprocess_image_rgb (env : Env) (p : string) (st : State)
    (img img' : ndarray) (h w : nat) :
  cv2_imread env p = Some img ->
  shape img = [h; w; 3] ->
  cv2_resize env img (IMG_W env) (IMG_H env) = Ret img' ->
  shape img' = [IMG_H env; IMG_W env; 3] ->
  Forall (fun v => (0 <= v <= 255)%Z) (data img') ->
  exists t,
    preprocess_image env p st = Normal (Some t) (add_log [EImread p] st) /\
    tshape t = [1; IMG_H env; IMG_W env; 3] /\
    Forall (fun q => (0 <= q <= 1)%Q) (tdata t).
Proof.
  intros Hread Hshape Hresize Hshape' Hrange.
  exists (expand_dims0 (astype_float32_div255 img')).
  repeat split.
  - unfold preprocess_image. unfold_monad. rewrite Hread, Hshape. simpl.
    by rewrite Hresize.
  - simpl. by rewrite Hshape'.
  - by apply astype_float32_div255_range.
Qed.

(** C1.  An image that decodes with four channels (colour and alpha, which
    [IMREAD_UNCHANGED] keeps) is passed on with four channels: the tensor has
    shape (1, H, W, 4), not (1, H, W, 3). *)
Theorem preprocess_image_keeps_alpha (env : Env) (p : string) (st : State)
    (img img' : ndarray) (h w : nat) :
  cv2_imread env p = Some img ->
  shape img = [h; w; 4] ->
  cv2_resize env img (IMG_W env) (IMG_H env) = Ret img' ->
  shape img' = [IMG_H env; IMG_W env; 4] ->
  exists t,
    preprocess_image env p st = Normal (Some t) (add_log [EImread p] st) /\
    tshape t = [1; IMG_H env; IMG_W env; 4] /\
    tshape t <> [1; IMG_H env; IMG_W env; 3].
Proof.
  intros Hread Hshape Hresize Hshape'.
  exists (expand_dims0 (astype_float32_div255 img')).
  assert (Ht : tshape (expand_dims0 (astype_float32_div255 img'))
               = [1; IMG_H env; IMG_W env; 4]).
  { simpl. by rewrite Hshape'. }
  repeat split.
  - unfold preprocess_image. unfold_monad. rewrite Hread, Hshape. simpl.
    by rewrite Hresize.
  - exact Ht.
  - rewrite Ht. discriminate.
Qed.

(** * The program on explicit inputs *)

Example format_2f_tie : format_2f (97345 # 1000) = "97.34".
Proof. vm_compute. reflexivity. Qed.

Example format_2f_small : format_2f (5 # 1000) = "0.00".
Proof. vm_compute. reflexivity. Qed.

Example format_2f_full : format_2f (100 # 1) = "100.00".
Proof. vm_compute. reflexivity. Qed.

Example basename_forward_slashes : basename "C:/xrays/a.png" = "a.png".
Proof. vm_compute. reflexivity. Qed.

Example strftime_pads :
  strftime_Ymd_HMS (mk_datetime 2024 3 9 7 5 0) = "20240309_070500".
Proof. vm_compute. reflexivity. Qed.

Example np_argmax_tie : np_argmax [1 # 2; 1 # 2; 0; 0]%Q = Ret 0.
Proof. reflexivity. Qed.

Example np_argmax_late_tie : np_argmax [0; 2 # 5; 1 # 5; 2 # 5]%Q = Ret 1.
Proof. reflexivity. Qed.

(** A 16-bit image is divided by 255 all the same: its samples leave [0,1]. *)
Example preprocess_image_16_bit :
  exists t st',
    preprocess_image Demo.env Demo.deep_png initial_state = Normal (Some t) st' /\
    tshape t = [1; 2; 2; 3] /\
    Forall (fun q => (q == 257)%Q) (tdata t).
Proof.
  eexists _, _. split; [vm_compute; reflexivity |].
  split; [reflexivity |]. repeat constructor.
Qed.

Lemma preprocess_image_keeps_alpha_witness :
  exists t,
    preprocess_image Demo.env Demo.alpha_png initial_state =
      Normal (Some t) (add_log [EImread Demo.alpha_png] initial_state) /\
    tshape t = [1; 2; 2; 4] /\
    tshape t <> [1; 2; 2; 3].
Proof.
  apply (preprocess_image_keeps_alpha Demo.env Demo.alpha_png initial_state
           Demo.alpha_image Demo.alpha_resized 1 1);
    vm_compute; reflexivity.
Defined.

Lemma predict_image_first_max_witness :
  exists idx label pr,
    predict_image Demo.env Demo.normal_png initial_state =
      Normal (Some label, Some (pr * 100)%Q)
        (add_log [EModelPredict] (add_log [EImread Demo.normal_png] initial_state)) /\
    Demo.normal_scores !! idx = Some pr /\
    CLASS_NAMES !! idx = Some label /\
    (forall j q, Demo.normal_scores !! j = Some q -> (q <= pr)%Q) /\
    (forall j q, j < idx -> Demo.normal_scores !! j = Some q -> (q < pr)%Q) /\
    In label CLASS_NAMES /\
    (0 <= pr * 100 <= 100)%Q.
Proof.
  apply (predict_image_first_max Demo.env Demo.normal_png initial_state
           (add_log [EImread Demo.normal_png] initial_state)
           Demo.normal_tensor Demo.normal_scores).
  - vm_compute. reflexivity.
  - vm_compute. reflexivity.
  - reflexivity.
  - intros [|[|[|[|j]]]] q; simpl; intros [= <-]; split; discriminate.
Defined.

Lemma batch_predict_progress_short_witness :
  let st' :=
    final_state (batch_predict Demo.env ([Demo.normal_png] ++ [Demo.corrupt_png])
                   initial_state) in
  progress_maximum st' = 2 /\ progress_value st' < progress_maximum st'.
Proof.
  apply (batch_predict_progress_short Demo.env [Demo.normal_png]
           Demo.corrupt_png initial_state).
  vm_compute. reflexivity.
Defined.

Lemma batch_predict_aborts_on_model_error_witness :
  (forall st1,
      predict_image Demo.env Demo.alpha_png st1 =
      Raised (ModelError "input is incompatible with the layer: expected shape (None, 2, 2, 3)")
        (add_log ([EImread Demo.alpha_png] ++ [EModelPredict]) st1)) /\
  exists e' st',
    batch_predict Demo.env ([Demo.normal_png] ++ Demo.alpha_png :: [Demo.covid_jpg])
      initial_state = Raised e' st' /\
    files st' = files initial_state.
Proof.
  apply (batch_predict_aborts_on_model_error Demo.env [Demo.normal_png]
           [Demo.covid_jpg] Demo.alpha_png initial_state
           (add_log [EImread Demo.alpha_png] initial_state) Demo.alpha_tensor).
  - vm_compute. reflexivity.
  - vm_compute. reflexivity.
Defined.

Lemma batch_predict_no_report_after_skip_witness :
  exists e st',
    batch_predict Demo.env ([Demo.corrupt_png] ++ Demo.normal_png :: [])
      initial_state = Raised e st' /\
    files st' = files initial_state.
Proof.
  apply (batch_predict_no_report_after_skip Demo.env [Demo.corrupt_png] []
           Demo.corrupt_png Demo.normal_png initial_state
           (add_log [EImread Demo.normal_png; EModelPredict] initial_state)
           "NORMAL" ((7 # 10) * 100)%Q).
  - simpl. left. reflexivity.
  - vm_compute. reflexivity.
  - vm_compute. reflexivity.
Defined.

Lemma itemconfig_index_past_end_witness :
  let refused :=
    TclError ("item number " +:+ dq +:+ dec 1 +:+ dq +:+ " out of range") in
  exists st_call,
    length (listbox (add_log Demo.skipped_log initial_state))
      = length ([] : list (list string)) /\
    length (listbox st_call) = 1 /\
    (Z.of_nat (length (listbox st_call)) <= 1)%Z /\
    batch_body Demo.env 2 Demo.normal_png []
      (add_log Demo.skipped_log initial_state) = Raised refused st_call /\
    batch_loop Demo.env 1 ([Demo.corrupt_png] ++ Demo.normal_png :: [Demo.covid_jpg])
      [] initial_state = Raised refused st_call.
Proof.
  apply (itemconfig_index_past_end Demo.env [Demo.corrupt_png] [Demo.covid_jpg]
           Demo.corrupt_png Demo.normal_png [] initial_state
           (add_log Demo.skipped_log initial_state)
           (add_log Demo.skipped_log initial_state)
           (add_log [EImread Demo.normal_png; EModelPredict] initial_state)
           "NORMAL" ((7 # 10) * 100)%Q).
  - simpl. left. reflexivity.
  - vm_compute. reflexivity.
  - vm_compute. reflexivity.
  - reflexivity.
  - vm_compute. reflexivity.
Defined.


Lemma decode_failure_notified_and_skipped_witness :
  let p := Demo.corrupt_png in
  let dialog :=
    EShowError "Image Error"
      (image_error_message p (ValueError "Cannot read image")) in
  (forall i rest results,
      exists st',
        batch_loop Demo.env i (p :: rest) results initial_state =
        batch_loop Demo.env (S i) rest results st' /\
        log st' = log initial_state ++ [EImread p; dialog] /\
        listbox st' = listbox initial_state /\ files st' = files initial_state) /\
  (p <> "" ->
   exists st',
     upload_predict_single Demo.env p initial_state = Normal tt st' /\
     log st' = log initial_state ++ [EImread p; dialog] /\
     image_label st' = image_label initial_state /\
     result_label st' = result_label initial_state).
Proof.
  apply (decode_failure_notified_and_skipped Demo.env Demo.corrupt_png
           initial_state).
  vm_compute. reflexivity.
Defined.

(** In a batch run the dialog for the file that does not decode is shown. *)
Lemma batch_failures_not_silent :
  ~ batch_failures_silent Demo.env [Demo.normal_png; Demo.corrupt_png]
      initial_state.
Proof.
  intros H.
  apply (H Demo.corrupt_png (ValueError "Cannot read image")).
  - simpl. auto.
  - vm_compute. reflexivity.
  - apply list_elem_of_In. apply (bool_decide_unpack _). vm_compute. exact I.
Qed.

Lemma batch_predict_report_name_witness :
  let csv_file :=
    "C:\Users\USER\Desktop\DATASETS\XRAY\predictions\xray_predictions_20240309_070500.csv" in
  let o := batch_predict Demo.env [Demo.normal_png; Demo.covid_jpg] initial_state in
  is_timestamp "20240309_070500" = true /\
  (exists l, log (final_state o) =
             log initial_state ++ EMakedirs save_folder :: ENow :: l) /\
  save_folder ∈ dirs (final_state o) /\
  (save_folder ∈ dirs initial_state -> dirs (final_state o) = dirs initial_state) /\
  (forall st', o = Normal tt st' ->
     exists results l,
       files st' = <[csv_file := csv_header :: results]> (files initial_state) /\
       log st' = l ++ [EOpenWrite csv_file;
                       EShowInfo "Batch Prediction"
                         ("Predictions completed!" +:+ nl +:+ "Saved to: "
                            +:+ csv_file)]).
Proof.
  apply (batch_predict_report_name Demo.env [Demo.normal_png; Demo.covid_jpg]
           initial_state).
  - discriminate.
  - unfold valid_datetime. cbn. lia.
Defined.

(** The clock is read before the first image: the two images of this run are
    read after it, the report carries the time of the start, 07:05:00, and the
    clock shows 07:05:02 when the list is exhausted. *)
Lemma clock_read_before_images :
  ~ clock_read_after_images
      (log (final_state
              (batch_predict Demo.env [Demo.normal_png; Demo.covid_jpg]
                 initial_state))).
Proof.
  intros H.
  apply (H [EMakedirs save_folder]
           (drop 2 (log (final_state
                           (batch_predict Demo.env [Demo.normal_png; Demo.covid_jpg]
                              initial_state))))
           Demo.normal_png).
  - vm_compute. reflexivity.
  - apply list_elem_of_In. apply (bool_decide_unpack _). vm_compute. exact I.
Qed.

Example report_named_by_start_time :
  let st' :=
    final_state (batch_predict Demo.env [Demo.normal_png; Demo.covid_jpg]
                   initial_state) in
  files st' !! (save_folder +:+ String backslash "xray_predictions_20240309_070500.csv")
    = Some [csv_header;
            ["normal.png"; "NORMAL"; "70.00%"];
            ["covid.jpg"; "COVID"; "97.34%"]] /\
  strftime_Ymd_HMS (datetime_now Demo.env (log st')) = "20240309_070502".
Proof. split; vm_compute; reflexivity. Qed.

(** * Further properties of the handlers *)

Lemma preprocess_image_cases (env : Env) (p : string) :
  (exists t, forall st,
      preprocess_image env p st = Normal (Some t) (add_log [EImread p] st)) \/
  (exists e, forall st,
      preprocess_image env p st =
      Normal None
        (add_log [EImread p; EShowError "Image Error" (image_error_message p e)] st)).
Proof.
  assert (Hbody : forall c : M (option tensor),
    ((exists t, forall st, c st = Normal (Some t) st) \/
     (exists e, forall st, c st = Raised e st)) ->
    (exists t, forall st,
      try_except (_ ← emit (EImread p); c)
        (fun e => _ ← showerror "Image Error" (image_error_message p e); mret None) st
      = Normal (Some t) (add_log [EImread p] st)) \/
    (exists e, forall st,
      try_except (_ ← emit (EImread p); c)
        (fun e => _ ← showerror "Image Error" (image_error_message p e); mret None) st
      = Normal None
        (add_log [EImread p; EShowError "Image Error" (image_error_message p e)] st))).
  { intros c [[t Hc] | [e Hc]]; [left; exists t | right; exists e]; intros st;
      unfold_monad; rewrite Hc; simpl; rewrite ?add_log_app; reflexivity. }
  unfold preprocess_image. apply Hbody. clear Hbody.
  destruct (cv2_imread env p) as [img|]; [| right; eexists; reflexivity].
  unfold_monad.
  repeat (first
    [ case_bool_decide
    | match goal with
      | |- context [match ?x with Ret _ => _ | Exc _ => _ end] =>
          destruct x eqn:?
      end ]; unfold_monad; simpl);
    eauto.
Qed.

Lemma predict_image_cases (env : Env) (p : string) :
  (exists e, forall st,
      predict_image env p st =
      Normal (None, None)
        (add_log [EImread p; EShowError "Image Error" (image_error_message p e)] st)) \/
  (exists l c,
      In l CLASS_NAMES /\
      forall st,
        predict_image env p st =
        Normal (Some l, Some c) (add_log [EImread p; EModelPredict] st)) \/
  (exists e, forall st,
      predict_image env p st = Raised e (add_log [EImread p; EModelPredict] st)).
Proof.
  unfold predict_image.
  destruct (preprocess_image_cases env p) as [[t Ht] | [e He]].
  2:{ left. exists e. intros st. unfold mbind, M_bind. by rewrite He. }
  right.
  assert (Hrun : forall (k : tensor -> M (option string * option Q)) st,
             (img ← preprocess_image env p;
              match img with
              | None => mret (None, None)
              | Some img => _ ← emit EModelPredict; k img
              end) st = k t (add_log [EImread p; EModelPredict] st)).
  { intros k st. unfold_monad. rewrite Ht. simpl. by rewrite add_log_app. }
  destruct (model_predict env t) as [rows | e] eqn:Hrows.
  2:{ right. exists e. intros st. rewrite Hrun, Hrows. reflexivity. }
  destruct (index rows 0) as [preds | e] eqn:Hpreds.
  2:{ right. exists e. intros st. rewrite Hrun, Hrows. unfold_monad. simpl.
      by rewrite Hpreds. }
  destruct (np_argmax preds) as [idx | e] eqn:Hidx.
  2:{ right. exists e. intros st. rewrite Hrun, Hrows. unfold_monad. simpl.
      rewrite Hpreds. unfold_monad. simpl. by rewrite Hidx. }
  destruct (index CLASS_NAMES idx) as [name | e] eqn:Hname.
  2:{ right. exists e. intros st. rewrite Hrun, Hrows. unfold_monad. simpl.
      rewrite Hpreds. unfold_monad. simpl. rewrite Hidx. unfold_monad. simpl.
      by rewrite Hname. }
  destruct (index preds idx) as [q | e] eqn:Hq.
  2:{ right. exists e. intros st. rewrite Hrun, Hrows. unfold_monad. simpl.
      rewrite Hpreds. unfold_monad. simpl. rewrite Hidx. unfold_monad. simpl.
      rewrite Hname. unfold_monad. simpl. by rewrite Hq. }
  left. exists name, (q * 100)%Q. split.
  - unfold index in Hname. destruct (CLASS_NAMES !! idx) as [n|] eqn:Hn;
      [| discriminate]. injection Hname as <-.
    apply list_elem_of_In. eapply list_elem_of_lookup_2; eauto.
  - intros st. rewrite Hrun, Hrows. unfold_monad. simpl.
    rewrite Hpreds. unfold_monad. simpl. rewrite Hidx. unfold_monad. simpl.
    rewrite Hname. unfold_monad. simpl. by rewrite Hq.
Qed.

Lemma class_colour (l : string) :
  In l CLASS_NAMES -> is_Some (CLASS_COLORS !! l) /\ color_of l <> "black".
Proof.
  simpl. intros [<- | [<- | [<- | [<- | []]]]]; vm_compute; split;
    eauto; discriminate.
Qed.

(** The three ways [predict_image] can go for a file, with what they mean for
    the report and the list box. *)
Lemma classify (env : Env) (p : string) :
  (exists e,
      (forall st,
          predict_image env p st =
          Normal (None, None)
            (add_log [EImread p;
                      EShowError "Image Error" (image_error_message p e)] st)) /\
      skipped env p = true /\ report_row env p = None /\
      listbox_line env p = None /\
      batch_events env p =
        [EImread p; EShowError "Image Error" (image_error_message p e)]) \/
  (exists l c,
      In l CLASS_NAMES /\
      (forall st,
          predict_image env p st =
          Normal (Some l, Some c) (add_log [EImread p; EModelPredict] st)) /\
      skipped env p = false /\
      report_row env p = Some [basename p; l; format_2f c +:+ "%"] /\
      listbox_line env p =
        Some (basename p +:+ " → " +:+ l +:+ " (" +:+ format_2f c +:+ "%)",
              Some (color_of l)) /\
      batch_events env p = [EImread p; EModelPredict; EUpdateIdletasks]) \/
  (exists e,
      (forall st,
          predict_image env p st =
          Raised e (add_log [EImread p; EModelPredict] st)) /\
      skipped env p = false /\ report_row env p = None /\
      listbox_line env p = None /\
      batch_events env p = [EImread p; EModelPredict]).
Proof.
  destruct (predict_image_cases env p) as [[e H] | [(l & c & Hl & H) | [e H]]];
    [left; exists e | right; left; exists l, c; split; [exact Hl |]
    | right; right; exists e];
    (split; [exact H |]);
    unfold skipped, report_row, listbox_line, batch_events; rewrite H; auto.
Qed.

(** X1.  [preprocess_image] never raises.  Either it returns a tensor, having
    done nothing but read the file, or it returns [None], having read the file
    and shown one "Image Error" dialog that names the path and the cause. *)
Theorem preprocess_image_outcome (env : Env) (p : string) (st : State) :
  (exists t,
      preprocess_image env p st = Normal (Some t) (add_log [EImread p] st)) \/
  (exists e,
      preprocess_image env p st =
      Normal None
        (add_log [EImread p; EShowError "Image Error" (image_error_message p e)]
           st)).
Proof.
  destruct (preprocess_image_cases env p) as [[t H] | [e H]]; eauto.
Qed.

(** X4.  Whatever the model answers, a pair returned by [predict_image] is
    either (None, None) or a label of [CLASS_NAMES] with a confidence; such a
    label has a colour of its own in [CLASS_COLORS], so the black fallback is
    never used for it. *)
Theorem predict_image_label_known (env : Env) (p : string) (st st' : State)
    (label : option string) (conf : option Q) :
  predict_image env p st = Normal (label, conf) st' ->
  (label = None /\ conf = None) \/
  (exists l c,
      label = Some l /\ conf = Some c /\ In l CLASS_NAMES /\
      is_Some (CLASS_COLORS !! l) /\ color_of l <> "black").
Proof.
  destruct (predict_image_cases env p) as [[e H] | [(l & c & Hl & H) | [e H]]];
    rewrite H; intros [= <- <- <-]; [by left | right].
  exists l, c. destruct (class_colour l Hl). auto.
Qed.

(** X5.  When the model has more outputs than there are class names and its
    highest score lies beyond the fourth, [predict_image] raises [IndexError]
    after the model call: it returns no label. *)
Theorem predict_image_label_out_of_range (env : Env) (p : string)
    (st st1 : State) (t : tensor) (preds : list Q) (rest : list (list Q))
    (idx : nat) :
  preprocess_image env p st = Normal (Some t) st1 ->
  model_predict env t = Ret (preds :: rest) ->
  np_argmax preds = Ret idx ->
  4 <= idx ->
  predict_image env p st =
  Raised (IndexError "index out of range") (add_log [EModelPredict] st1).
Proof.
  intros Hpre Hmodel Harg Hidx. unfold predict_image. unfold_monad.
  rewrite Hpre. simpl. rewrite Hmodel. simpl. rewrite Harg. unfold_monad. simpl.
  unfold index. rewrite (lookup_ge_None_2 CLASS_NAMES idx) by (simpl; lia).
  reflexivity.
Qed.

(** X6.  [predict_image] touches nothing but the log: widgets and file system
    are as before.  It reads the file once and then either calls the model
    once, or shows one error dialog; it never does both. *)
Theorem predict_image_only_logs (env : Env) (p : string) (st : State) :
  let st' := final_state (predict_image env p st) in
  listbox st' = listbox st /\
  progress_value st' = progress_value st /\
  progress_maximum st' = progress_maximum st /\
  dirs st' = dirs st /\
  files st' = files st /\
  image_label st' = image_label st /\
  result_label st' = result_label st /\
  (log st' = log st ++ [EImread p; EModelPredict] \/
   exists e,
     log st' =
     log st ++ [EImread p; EShowError "Image Error" (image_error_message p e)]).
Proof.
  destruct (predict_image_cases env p) as [[e H] | [(l & c & Hl & H) | [e H]]];
    rewrite H; simpl; repeat split; eauto.
Qed.

(** ** The single-image handler *)

Lemma overlay_prediction_cases (env : Env) (p label : string) (conf : option Q) :
  (exists e, forall st, overlay_prediction env p label conf st = Raised e st) \/
  (exists c img ops,
      conf = Some c /\
      (forall st,
          overlay_prediction env p label conf st = Normal (mk_PhotoImage img) st) /\
      im_file img = p /\
      im_ops img = ops ++ banner (im_width img) label c).
Proof.
  unfold overlay_prediction.
  destruct (Image_open env p) as [[[mode w] h] | e];
    [| left; exists e; reflexivity].
  destruct conf as [c|]; [| left; eexists; reflexivity].
  right.
  pose (img0 := if bool_decide (mode = "RGB") then mk_image p mode w h []
                else convert "RGB" (mk_image p mode w h [])).
  pose (img1 := thumbnail 300 300 img0).
  exists c,
    (draw_text 5 5 (label +:+ " (" +:+ format_2f c +:+ "%)") "white"
       (draw_rectangle 0 0 (im_width img1) 25 (color_of label) img1)),
    (im_ops img1).
  split; [reflexivity |]. split; [reflexivity |]. split.
  - subst img1 img0. cbn [draw_text draw_rectangle im_file]. unfold thumbnail.
    repeat case_match; reflexivity.
  - cbn [draw_text draw_rectangle im_ops im_width]. unfold banner.
    by rewrite <- app_assoc.
Qed.

(** X7.  For a file that is classified and that Pillow opens,
    [upload_predict_single] shows no dialog, puts the thumbnail of that file
    with the banner of the label and the confidence into the image label, and
    writes the same label and the same two-decimal confidence under it, in the
    colour of the banner. *)
Theorem upload_predict_single_shows (env : Env) (p : string) (st s0 : State)
    (label : string) (c : Q) (mode : string) (w h : Z) :
  p <> "" ->
  predict_image env p initial_state = Normal (Some label, Some c) s0 ->
  Image_open env p = Ret (mode, w, h) ->
  exists img ops,
    upload_predict_single env p st =
      Normal tt
        (set_result_label (result_text label c, color_of label)
           (set_image_label (Some (mk_PhotoImage img))
              (add_log [EImread p; EModelPredict] st))) /\
    im_file img = p /\
    im_ops img = ops ++ banner (im_width img) label c.
Proof.
  intros Hne Hpred Hopen.
  destruct (predict_image_cases env p) as [[e H] | [(l & q & Hl & H) | [e H]]];
    rewrite H in Hpred; try discriminate.
  injection Hpred as -> -> _.
  destruct (overlay_prediction_cases env p label (Some c))
    as [[e He] | (c' & img & ops & [= <-] & Hov & Hfile & Hops)].
  { specialize (He st). unfold overlay_prediction in He. unfold_monad.
    rewrite Hopen in He. discriminate. }
  exists img, ops. split; [| by split].
  unfold upload_predict_single. rewrite bool_decide_eq_false_2 by exact Hne.
  unfold mbind, M_bind. rewrite H. unfold upload_on_result.
  unfold mbind, M_bind. rewrite Hov. reflexivity.
Qed.

(** X8.  [upload_predict_single] never touches the list box, the progress bar
    or the file system.  It changes the display all at once or not at all:
    unless it returns with a classified file, the image and the text of the
    previous prediction stay on display; when it does, the image carries the
    banner of the very label and confidence written under it. *)
Theorem upload_predict_single_display (env : Env) (p : string) (st : State) :
  let o := upload_predict_single env p st in
  let st' := final_state o in
  listbox st' = listbox st /\
  progress_value st' = progress_value st /\
  progress_maximum st' = progress_maximum st /\
  dirs st' = dirs st /\
  files st' = files st /\
  ((image_label st' = image_label st /\ result_label st' = result_label st) \/
   (exists img ops label c,
       o = Normal tt st' /\ In label CLASS_NAMES /\
       image_label st' = Some (mk_PhotoImage img) /\
       im_ops img = ops ++ banner (im_width img) label c /\
       result_label st' = (result_text label c, color_of label))).
Proof.
  unfold upload_predict_single. case_bool_decide as Hp; simpl.
  { repeat split; auto. }
  unfold mbind, M_bind.
  destruct (predict_image_cases env p) as [[e H] | [(l & q & Hl & H) | [e H]]];
    rewrite H; simpl; try (repeat split; auto; fail).
  unfold mbind, M_bind.
  destruct (overlay_prediction_cases env p l (Some q))
    as [[e He] | (c' & img & ops & [= <-] & Hov & Hfile & Hops)].
  - rewrite He. simpl. repeat split; auto.
  - rewrite Hov. simpl. repeat split; auto.
    right. exists img, ops, l, q. auto.
Qed.

(** ** The batch handler *)

Lemma batch_body_classified_exact (env : Env) (i : nat) (p : string)
    (results : list (list string)) (st : State) (l : string) (c : Q) :
  (forall st0,
      predict_image env p st0 =
      Normal (Some l, Some c) (add_log [EImread p; EModelPredict] st0)) ->
  i = S (length (listbox st)) ->
  batch_body env i p results st =
  Normal (results ++ [[basename p; l; format_2f c +:+ "%"]])
    (mk_State (log st ++ [EImread p; EModelPredict; EUpdateIdletasks])
       (listbox st
          ++ [(basename p +:+ " → " +:+ l +:+ " (" +:+ format_2f c +:+ "%)",
               Some (color_of l))])
       i (progress_maximum st) (dirs st) (files st) (image_label st)
       (result_label st)).
Proof.
  intros Hpred ->. unfold batch_body, mbind, M_bind. rewrite Hpred. simpl.
  unfold_monad. simpl. unfold listbox_insert_end, listbox_itemconfig, update.
  simpl. rewrite length_app. simpl.
  replace ((0 <=? Z.of_nat (S (length (listbox st))) - 1)
           && (Z.of_nat (S (length (listbox st))) - 1
               <? Z.of_nat (length (listbox st) + 1)))%Z with true.
  2:{ symmetry. apply andb_true_iff.
      split; [apply Z.leb_le | apply Z.ltb_lt]; lia. }
  unfold add_log, set_log, set_listbox, set_progress_value. simpl.
  replace (Z.to_nat (Z.of_nat (S (length (listbox st))) - 1))
    with (length (listbox st) + 0) by lia.
  rewrite alter_app_r. simpl. by rewrite <- app_assoc.
Qed.

(** What a loop that returns has done.  [i] is the position of the first file
    and is past the lines of the list box. *)
Lemma batch_loop_completed (env : Env) (paths : list string) :
  forall (i : nat) (results r : list (list string)) (st st' : State),
    S (length (listbox st)) <= i ->
    batch_loop env i paths results st = Normal r st' ->
    r = results ++ omap (report_row env) paths /\
    listbox st' = listbox st ++ omap (listbox_line env) paths /\
    log st' = log st ++ flat_map (batch_events env) paths /\
    (S (length (listbox st)) < i ->
     Forall (fun p => skipped env p = true) paths) /\
    (exists good bad,
        paths = good ++ bad /\
        Forall (fun p => is_Some (report_row env p)) good /\
        Forall (fun p => skipped env p = true) bad) /\
    (omap (report_row env) paths <> [] ->
     progress_value st' = length (listbox st')) /\
    (omap (report_row env) paths = [] ->
     progress_value st' = progress_value st).
Proof.
  induction paths as [|p paths IH]; intros i results r st st' Hi; simpl.
  - intros [= <- <-]. rewrite !app_nil_r.
    split; [done |]. split; [done |]. split; [done |].
    split; [by constructor |]. split; [by exists [], [] |]. by split.
  - unfold mbind, M_bind.
    destruct (classify env p)
      as [(e & Hpred & Hskip & Hrow & Hline & Hev)
         | [(l & c & Hl & Hpred & Hskip & Hrow & Hline & Hev)
           | (e & Hpred & Hskip & Hrow & Hline & Hev)]];
      rewrite Hrow, Hline, Hev.
    + unfold batch_body, mbind, M_bind. rewrite Hpred. simpl. unfold_monad.
      intros Hloop.
      apply IH in Hloop as (Hr & Hlb & Hlog & Hlate & _ & Hp1 & Hp0);
        [| simpl; lia].
      simpl in *. specialize (Hlate ltac:(lia)).
      rewrite Hlog, <- app_assoc. repeat split; auto.
      exists [], (p :: paths). auto.
    + destruct (decide (i = S (length (listbox st)))) as [-> | Hne].
      * rewrite (batch_body_classified_exact _ _ _ _ _ _ _ Hpred eq_refl).
        intros Hloop.
        apply IH in Hloop
          as (Hr & Hlb & Hlog & _ & (good & bad & -> & Hgood & Hbad) & Hp1 & Hp0);
          [| simpl; rewrite length_app; simpl; lia].
        simpl in Hr, Hlb, Hlog, Hp0.
        split; [by rewrite Hr, <- app_assoc |].
        split; [by rewrite Hlb, <- app_assoc |].
        split; [by rewrite Hlog, <- app_assoc |].
        split; [intros Hlt; lia |].
        split.
        { exists (p :: good), bad. split; [done |]. split; [| exact Hbad].
          constructor; [by rewrite Hrow | exact Hgood]. }
        split; [intros _ | discriminate].
        destruct (omap (report_row env) (good ++ bad)) eqn:Hrest.
        -- rewrite Hp0 by reflexivity.
           assert (Hnil : omap (listbox_line env) (good ++ bad) = []).
           { clear -Hrest. induction (good ++ bad) as [|x xs IHx];
               [reflexivity |]. simpl in *.
             unfold report_row in Hrest at 1. unfold listbox_line at 1.
             destruct (predict_image env x initial_state)
               as [[[lx|] [cx|]] sx | ex sx]; try discriminate; auto. }
           rewrite Hlb, Hnil, !length_app. simpl. lia.
        -- by apply Hp1.
      * assert (Hs0 : predict_image env p initial_state =
                      Normal (Some l, Some c)
                        (add_log [EImread p; EModelPredict] initial_state))
          by apply Hpred.
        rewrite (batch_body_out_of_range _ _ _ _ _ _ _ _ Hs0) by lia.
        discriminate.
    + unfold batch_body, mbind, M_bind. rewrite Hpred. discriminate.
Qed.

Lemma batch_predict_completed (env : Env) (paths : list string) (st st' : State) :
  paths <> [] ->
  batch_predict env paths st = Normal tt st' ->
  exists st1,
    batch_loop env 1 paths [] (batch_start paths st)
      = Normal (omap (report_row env) paths) st1 /\
    st' = batch_finish env st (omap (report_row env) paths) st1 /\
    listbox st1 = omap (listbox_line env) paths /\
    log st1 = log st ++ [EMakedirs save_folder; ENow]
                ++ flat_map (batch_events env) paths /\
    (exists good bad,
        paths = good ++ bad /\
        Forall (fun p => is_Some (report_row env p)) good /\
        Forall (fun p => skipped env p = true) bad) /\
    (omap (report_row env) paths <> [] ->
     progress_value st1 = length (listbox st1)) /\
    (omap (report_row env) paths = [] -> progress_value st1 = 0) /\
    progress_maximum st1 = length paths /\
    files st1 = files st /\
    dirs st1 = {[save_folder]} ∪ dirs st.
Proof.
  intros Hne. rewrite batch_predict_unfold by exact Hne.
  pose proof (batch_loop_frame env paths 1 [] (batch_start paths st))
    as (Hm & Hf & Hd & _).
  destruct (batch_loop env 1 paths [] (batch_start paths st))
    as [r st1 | e st1] eqn:Hloop; [| discriminate].
  intros [= <-].
  apply batch_loop_completed in Hloop
    as (-> & Hlb & Hlog & _ & Hsplit & Hp1 & Hp0); [| simpl; lia].
  simpl in *. exists st1. rewrite <- app_assoc in Hlog. repeat split; auto.
Qed.

Lemma classified_not_skipped (env : Env) (p : string) :
  is_Some (report_row env p) -> skipped env p = false.
Proof.
  unfold report_row, skipped.
  destruct (predict_image env p initial_state) as [[[l|] [c|]] s0 | e s0];
    intros [row Hrow]; try discriminate; reflexivity.
Qed.

Lemma skipped_not_classified (env : Env) (p : string) :
  skipped env p = true -> report_row env p = None /\ listbox_line env p = None.
Proof.
  unfold report_row, listbox_line, skipped.
  destruct (predict_image env p initial_state) as [[[l|] [c|]] s0 | e s0];
    intros H; try discriminate; auto.
Qed.

(** Rows and skipped files of a list whose classified files come first. *)
Lemma rows_of_sorted (env : Env) (good bad : list string) :
  Forall (fun p => is_Some (report_row env p)) good ->
  Forall (fun p => skipped env p = true) bad ->
  length (omap (report_row env) (good ++ bad)) = length good /\
  length (List.filter (skipped env) (good ++ bad)) = length bad.
Proof.
  intros Hgood Hbad. rewrite omap_app, List.filter_app, !length_app.
  assert (H1 : length (omap (report_row env) good) = length good).
  { clear -Hgood. induction Hgood as [|p good [row Hrow] _ IH]; [done |].
    simpl. rewrite Hrow. simpl. by f_equal. }
  assert (H2 : omap (report_row env) bad = []).
  { clear -Hbad. induction Hbad as [|p bad Hs _ IH]; [done |].
    simpl. destruct (skipped_not_classified env p Hs) as [-> _]. exact IH. }
  assert (H3 : List.filter (skipped env) good = []).
  { clear -Hgood. induction Hgood as [|p good Hrow _ IH]; [done |].
    simpl. by rewrite (classified_not_skipped env p Hrow). }
  assert (H4 : length (List.filter (skipped env) bad) = length bad).
  { clear -Hbad. induction Hbad as [|p bad Hs _ IH]; [done |].
    simpl. rewrite Hs. simpl. by f_equal. }
  rewrite H1, H2, H3, H4. simpl. lia.
Qed.

(** X10.  Whenever [batch_predict] completes, the report file holds the header
    followed by the rows of the classified files in the order of submission,
    whatever a file of that name held before; with N files of which K are
    skipped, that is N - K rows. *)
Theorem batch_predict_completed_report (env : Env) (paths : list string)
    (st st' : State) :
  paths <> [] ->
  batch_predict env paths st = Normal tt st' ->
  files st' !! batch_csv_file env st
    = Some (csv_header :: omap (report_row env) paths) /\
  length (omap (report_row env) paths)
    + length (List.filter (skipped env) paths) = length paths.
Proof.
  intros Hne Hrun.
  destruct (batch_predict_completed env paths st st' Hne Hrun)
    as (st1 & _ & -> & _ & _ & (good & bad & -> & Hgood & Hbad) & _).
  split.
  - unfold batch_finish. simpl. apply lookup_insert_eq.
  - destruct (rows_of_sorted env good bad Hgood Hbad) as [-> ->].
    by rewrite length_app.
Qed.

(** X11.  [batch_predict] completes only if no skipped file comes before a
    classified one.  The progress bar then stops at the number of classified
    files, out of the number of files submitted. *)
Theorem batch_predict_completed_order (env : Env) (paths : list string)
    (st st' : State) :
  paths <> [] ->
  batch_predict env paths st = Normal tt st' ->
  exists good bad,
    paths = good ++ bad /\
    Forall (fun p => is_Some (report_row env p)) good /\
    Forall (fun p => skipped env p = true) bad /\
    progress_value st' = length good /\
    progress_maximum st' = length paths.
Proof.
  intros Hne Hrun.
  destruct (batch_predict_completed env paths st st' Hne Hrun)
    as (st1 & _ & -> & Hlb & _ & (good & bad & -> & Hgood & Hbad) & Hp1 & Hp0
        & Hm & _).
  exists good, bad. repeat split; auto. simpl.
  destruct (rows_of_sorted env good bad Hgood Hbad) as [Hrows _].
  destruct (omap (report_row env) (good ++ bad)) as [|row rows] eqn:Hr.
  - rewrite Hp0 by reflexivity. simpl in Hrows. lia.
  - rewrite Hp1 by discriminate. rewrite Hlb.
    clear -Hgood Hbad.
    rewrite omap_app.
    assert (H1 : length (omap (listbox_line env) good) = length good).
    { clear -Hgood. induction Hgood as [|p good Hrow _ IH]; [done |].
      simpl. unfold report_row in Hrow. unfold listbox_line at 1.
      destruct (predict_image env p initial_state) as [[[l|] [c|]] s0 | e s0];
        destruct Hrow as [row Hrow]; try discriminate. simpl. by f_equal. }
    assert (H2 : omap (listbox_line env) bad = []).
    { clear -Hbad. induction Hbad as [|p bad Hs _ IH]; [done |].
      simpl. destruct (skipped_not_classified env p Hs) as [_ ->]. exact IH. }
    rewrite H2, app_nil_r. exact H1.
Qed.

Lemma rows_match_lines (env : Env) (paths : list string) :
  Forall2
    (fun (row : list string) (line : item) =>
       exists name label conf,
         row = [name; label; conf +:+ "%"] /\
         line = (name +:+ " → " +:+ label +:+ " (" +:+ conf +:+ "%)",
                 Some (color_of label)))
    (omap (report_row env) paths) (omap (listbox_line env) paths).
Proof.
  induction paths as [|p paths IH]; simpl; [constructor |].
  unfold report_row at 1, listbox_line at 1.
  destruct (predict_image env p initial_state) as [[[l|] [c|]] s0 | e s0];
    try exact IH.
  constructor; [| exact IH]. exists (basename p), l, (format_2f c). auto.
Qed.

(** X12.  When [batch_predict] completes, the list box holds exactly the lines
    of this run, whatever it held before: one line per row of the report, in
    the same order, showing the file name, the label and the confidence of
    that row, in the colour of the label. *)
Theorem batch_predict_listbox_matches_report (env : Env) (paths : list string)
    (st st' : State) :
  paths <> [] ->
  batch_predict env paths st = Normal tt st' ->
  exists rows,
    files st' !! batch_csv_file env st = Some (csv_header :: rows) /\
    Forall2
      (fun (row : list string) (line : item) =>
         exists name label conf,
           row = [name; label; conf +:+ "%"] /\
           line = (name +:+ " → " +:+ label +:+ " (" +:+ conf +:+ "%)",
                   Some (color_of label)))
      rows (listbox st').
Proof.
  intros Hne Hrun.
  destruct (batch_predict_completed env paths st st' Hne Hrun)
    as (st1 & _ & -> & Hlb & _).
  exists (omap (report_row env) paths). split.
  - unfold batch_finish. simpl. apply lookup_insert_eq.
  - simpl. rewrite Hlb. apply rows_match_lines.
Qed.

Lemma batch_body_labels (env : Env) (i : nat) (p : string)
    (results : list (list string)) (st : State) :
  let st' := final_state (batch_body env i p results st) in
  image_label st' = image_label st /\ result_label st' = result_label st.
Proof.
  rewrite batch_body_run.
  destruct (predict_image env p initial_state) as [[[label|] conf] s0 | e s0];
    simpl; auto.
  destruct conf as [c|]; unfold_monad; simpl; auto.
  unfold listbox_insert_end, listbox_itemconfig, update. simpl.
  match goal with |- context [if ?b then _ else _] => destruct b end;
    simpl; auto.
Qed.

Lemma batch_loop_labels (env : Env) (paths : list string) :
  forall (i : nat) (results : list (list string)) (st : State),
    let st' := final_state (batch_loop env i paths results st) in
    image_label st' = image_label st /\ result_label st' = result_label st.
Proof.
  induction paths as [|p paths IH]; intros i results st; simpl; [auto |].
  unfold mbind, M_bind.
  pose proof (batch_body_labels env i p results st) as [Hi Hr].
  destruct (batch_body env i p results st) as [r st1 | e st1]; simpl in *;
    [| auto].
  destruct (IH (S i) r st1) as [Hi' Hr']. split; congruence.
Qed.

(** X13.  [batch_predict] writes no file but its report and creates no
    directory but the predictions folder, whether it completes or not; when
    it does not complete it writes no file at all.  The image and the text of
    the single-image display are left alone. *)
Theorem batch_predict_touches_only_report (env : Env) (paths : list string)
    (st : State) :
  let o := batch_predict env paths st in
  let st' := final_state o in
  (forall path,
      path <> batch_csv_file env st -> files st' !! path = files st !! path) /\
  (forall e s, o = Raised e s -> files st' = files st) /\
  (forall d, d ∈ dirs st' <-> d = save_folder /\ paths <> [] \/ d ∈ dirs st) /\
  image_label st' = image_label st /\
  result_label st' = result_label st.
Proof.
  destruct paths as [|p0 rest].
  { simpl. split; [done |]. split; [done |]. split; [| done].
    intros d. split; [auto |]. by intros [[_ []] | H]. }
  rewrite batch_predict_unfold by discriminate.
  pose proof (batch_loop_frame env (p0 :: rest) 1 [] (batch_start (p0 :: rest) st))
    as (_ & Hf & Hd & _).
  pose proof (batch_loop_labels env (p0 :: rest) 1 [] (batch_start (p0 :: rest) st))
    as [Hi Hr].
  assert (Hdirs : forall d : string,
             d ∈ ({[save_folder]} ∪ dirs st : gset string) <->
             d = save_folder /\ p0 :: rest <> [] \/ d ∈ dirs st).
  { intros d. rewrite elem_of_union, elem_of_singleton. split.
    - intros [-> | H]; [left | right; exact H]. split; [done | discriminate].
    - intros [[-> _] | H]; [left; reflexivity | right; exact H]. }
  destruct (batch_loop env 1 (p0 :: rest) [] _) as [r st1 | e st1];
    simpl in *; rewrite ?Hf, ?Hd.
  - split; [intros path Hpath; by rewrite lookup_insert_ne |].
    split; [discriminate |]. by split.
  - split; [done |]. split; [done |]. by split.
Qed.

(** X14.  After a run over a non-empty list, completed or not, the bound of
    the progress bar is the number of files and the value does not exceed it. *)
Theorem batch_predict_progress_bounded (env : Env) (paths : list string)
    (st : State) :
  paths <> [] ->
  let st' := final_state (batch_predict env paths st) in
  progress_maximum st' = length paths /\
  progress_value st' <= progress_maximum st'.
Proof.
  intros Hne. rewrite batch_predict_unfold by exact Hne.
  pose proof (batch_loop_frame env paths 1 [] (batch_start paths st))
    as (Hm & _ & _ & Hv).
  destruct (batch_loop env 1 paths [] _) as [r st1 | e st1]; simpl in *; lia.
Qed.

Lemma batch_events_classified (env : Env) (p : string) :
  is_Some (report_row env p) ->
  batch_events env p = [EImread p; EModelPredict; EUpdateIdletasks].
Proof.
  intros [row Hrow].
  destruct (classify env p)
    as [(e & _ & _ & Hr & _) | [(l & c & _ & _ & _ & _ & _ & Hev) | (e & _ & _ & Hr & _)]];
    congruence.
Qed.

Lemma batch_events_skipped (env : Env) (p : string) :
  skipped env p = true ->
  exists e,
    batch_events env p =
    [EImread p; EShowError "Image Error" (image_error_message p e)].
Proof.
  intros Hs.
  destruct (classify env p)
    as [(e & _ & _ & _ & _ & Hev) | [(l & c & _ & _ & Hs' & _) | (e & _ & Hs' & _)]];
    [eauto | congruence | congruence].
Qed.

Lemma batch_events_counts (env : Env) (good bad : list string) :
  Forall (fun p => is_Some (report_row env p)) good ->
  Forall (fun p => skipped env p = true) bad ->
  let l := flat_map (batch_events env) (good ++ bad) in
  length (List.filter is_imread l) = length good + length bad /\
  length (List.filter is_model_call l) = length good /\
  length (List.filter is_error_dialog l) = length bad /\
  length (List.filter is_info_dialog l) = 0.
Proof.
  intros Hgood Hbad. simpl.
  induction Hgood as [|p good Hp _ IH]; simpl.
  - induction Hbad as [|p bad Hp _ IH]; simpl; [auto |].
    destruct (batch_events_skipped env p Hp) as [e ->]. simpl. lia.
  - rewrite (batch_events_classified env p Hp). simpl. lia.
Qed.

(** X15.  In a run that completes, every file is read once, the model is
    called once for each row of the report, one error dialog is shown for each
    skipped file, and one completion dialog is shown. *)
Theorem batch_predict_dialog_count (env : Env) (paths : list string)
    (st st' : State) :
  paths <> [] ->
  batch_predict env paths st = Normal tt st' ->
  exists l,
    log st' = log st ++ l /\
    length (List.filter is_imread l) = length paths /\
    length (List.filter is_model_call l)
      = length (omap (report_row env) paths) /\
    length (List.filter is_error_dialog l)
      = length (List.filter (skipped env) paths) /\
    length (List.filter is_info_dialog l) = 1.
Proof.
  intros Hne Hrun.
  destruct (batch_predict_completed env paths st st' Hne Hrun)
    as (st1 & _ & -> & _ & Hlog & (good & bad & -> & Hgood & Hbad) & _).
  destruct (batch_events_counts env good bad Hgood Hbad) as (H1 & H2 & H3 & H4).
  destruct (rows_of_sorted env good bad Hgood Hbad) as [-> ->].
  eexists. split.
  - unfold batch_finish. simpl. rewrite Hlog, <- !app_assoc. reflexivity.
  - simpl. rewrite !List.filter_app, !length_app. simpl.
    rewrite H1, H2, H3, H4. lia.
Qed.

(** ** Report names and report rows *)

Lemma digits_value_zpad (w : nat) (bound : Z) :
  forallb
    (fun n => Z.eqb (digits_value (String.list_ascii_of_string (zpad w (Z.of_nat n))))
                (Z.of_nat n))
    (seq 0 (Z.to_nat bound)) = true ->
  forall z, (0 <= z < bound)%Z ->
    digits_value (String.list_ascii_of_string (zpad w z)) = z.
Proof.
  intros Hall z Hz. rewrite forallb_forall in Hall.
  rewrite <- (Z2Nat.id z) at 2 by lia. apply Z.eqb_eq.
  rewrite <- (Z2Nat.id z) at 1 by lia. apply Hall, in_seq. lia.
Qed.

Lemma zpad2_value (z : Z) :
  (0 <= z <= 99)%Z -> digits_value (String.list_ascii_of_string (zpad 2 z)) = z.
Proof.
  intros Hz. apply (digits_value_zpad 2 100); [vm_compute; reflexivity | lia].
Qed.

Lemma zpad4_value (z : Z) :
  (0 <= z <= 9999)%Z -> digits_value (String.list_ascii_of_string (zpad 4 z)) = z.
Proof.
  intros Hz. apply (digits_value_zpad 4 10000); [vm_compute; reflexivity | lia].
Qed.

(** Reading a time stamp back gives the clock reading it was made from. *)
Lemma parse_strftime (t : datetime) :
  valid_datetime t -> parse_timestamp (strftime_Ymd_HMS t) = Some t.
Proof.
  intros (Hy & Hm & Hd & Hh & Hn & Hs).
  pose proof (zpad4_value (year t) ltac:(lia)) as Vy.
  pose proof (zpad2_value (month t) ltac:(lia)) as Vm.
  pose proof (zpad2_value (day t) ltac:(lia)) as Vd.
  pose proof (zpad2_value (hour t) ltac:(lia)) as Vh.
  pose proof (zpad2_value (minute t) ltac:(lia)) as Vn.
  pose proof (zpad2_value (second t) ltac:(lia)) as Vs.
  destruct (digits_n_4 _ (zpad4_digits (year t) ltac:(lia)))
    as (y1 & y2 & y3 & y4 & Ey & _).
  destruct (digits_n_2 _ (zpad2_digits (month t) ltac:(lia))) as (m1 & m2 & Em & _).
  destruct (digits_n_2 _ (zpad2_digits (day t) ltac:(lia))) as (d1 & d2 & Ed & _).
  destruct (digits_n_2 _ (zpad2_digits (hour t) ltac:(lia))) as (h1 & h2 & Eh & _).
  destruct (digits_n_2 _ (zpad2_digits (minute t) ltac:(lia))) as (n1 & n2 & En & _).
  destruct (digits_n_2 _ (zpad2_digits (second t) ltac:(lia))) as (s1 & s2 & Es & _).
  rewrite Ey in Vy. rewrite Em in Vm. rewrite Ed in Vd. rewrite Eh in Vh.
  rewrite En in Vn. rewrite Es in Vs.
  unfold parse_timestamp, strftime_Ymd_HMS.
  rewrite !list_ascii_of_string_app, Ey, Em, Ed, Eh, En, Es.
  cbn [app String.list_ascii_of_string].
  rewrite Vy, Vm, Vd, Vh, Vn, Vs. by destruct t.
Qed.

Lemma string_app_inv_head (s a b : string) : s +:+ a = s +:+ b -> a = b.
Proof. induction s as [|c s IH]; simpl; [auto | intros [= H]; auto]. Qed.

Lemma string_app_inv_tail (a b s : string) : a +:+ s = b +:+ s -> a = b.
Proof.
  intros H. apply (f_equal String.list_ascii_of_string) in H.
  rewrite !list_ascii_of_string_app in H. apply app_inv_tail in H.
  rewrite <- (String.string_of_list_ascii_of_string a),
    <- (String.string_of_list_ascii_of_string b). by rewrite H.
Qed.

Lemma csv_file_injective (t1 t2 : datetime) :
  valid_datetime t1 -> valid_datetime t2 ->
  path_join save_folder (csv_name (strftime_Ymd_HMS t1)) =
  path_join save_folder (csv_name (strftime_Ymd_HMS t2)) ->
  t1 = t2.
Proof.
  intros H1 H2. rewrite !csv_file_eq. intros H.
  apply string_app_inv_head, string_app_inv_tail in H.
  apply (f_equal parse_timestamp) in H.
  rewrite !parse_strftime in H by assumption. by injection H.
Qed.

(** X16.  Two runs that read different times from the clock write their
    reports under different names. *)
Theorem batch_csv_file_distinct (env : Env) (st1 st2 : State) :
  let t1 := datetime_now env (log st1 ++ [EMakedirs save_folder]) in
  let t2 := datetime_now env (log st2 ++ [EMakedirs save_folder]) in
  valid_datetime t1 -> valid_datetime t2 -> t1 <> t2 ->
  batch_csv_file env st1 <> batch_csv_file env st2.
Proof.
  intros t1 t2 H1 H2 Hne Heq. apply Hne.
  by apply csv_file_injective.
Qed.

Lemma batch_predict_other_files (env : Env) (paths : list string) (st : State)
    (path : string) :
  path <> batch_csv_file env st ->
  files (final_state (batch_predict env paths st)) !! path = files st !! path.
Proof.
  intros Hpath. destruct paths as [|p0 rest]; [reflexivity |].
  rewrite batch_predict_unfold by discriminate.
  pose proof (batch_loop_frame env (p0 :: rest) 1 [] (batch_start (p0 :: rest) st))
    as (_ & Hf & _).
  destruct (batch_loop env 1 (p0 :: rest) [] _) as [r st1 | e st1];
    simpl in *; rewrite Hf; [by rewrite lookup_insert_ne | done].
Qed.

(** X17.  After a run has completed, a second run that reads a different time
    from the clock leaves the first report as it is, whether the second run
    completes or not; a second run that completes within the same second
    replaces the first report by its own. *)
Theorem batch_predict_second_run (env : Env) (paths1 paths2 : list string)
    (st st1 : State) :
  paths1 <> [] -> paths2 <> [] ->
  batch_predict env paths1 st = Normal tt st1 ->
  let t1 := datetime_now env (log st ++ [EMakedirs save_folder]) in
  let t2 := datetime_now env (log st1 ++ [EMakedirs save_folder]) in
  valid_datetime t1 -> valid_datetime t2 ->
  (t1 <> t2 ->
   files (final_state (batch_predict env paths2 st1)) !! batch_csv_file env st
     = Some (csv_header :: omap (report_row env) paths1)) /\
  (t1 = t2 ->
   forall st2,
     batch_predict env paths2 st1 = Normal tt st2 ->
     files st2 !! batch_csv_file env st
       = Some (csv_header :: omap (report_row env) paths2)).
Proof.
  intros Hne1 Hne2 Hrun1 t1 t2 Hv1 Hv2. split.
  - intros Hne. rewrite batch_predict_other_files.
    + destruct (batch_predict_completed env paths1 st st1 Hne1 Hrun1)
        as (s & _ & -> & _).
      unfold batch_finish. simpl. apply lookup_insert_eq.
    + intros Heq. apply Hne. by apply csv_file_injective.
  - intros Heq st2 Hrun2.
    destruct (batch_predict_completed env paths2 st1 st2 Hne2 Hrun2)
      as (s & _ & -> & _).
    assert (Hname : batch_csv_file env st = batch_csv_file env st1).
    { unfold batch_csv_file, batch_timestamp. fold t1 t2. by rewrite Heq. }
    rewrite Hname. unfold batch_finish. simpl. apply lookup_insert_eq.
Qed.

Lemma after_last_sep_no_sep (p : string) :
  existsb is_sep (String.list_ascii_of_string (after_last_sep p)) = false.
Proof.
  induction p as [|c rest IH]; simpl; [reflexivity |].
  destruct (existsb is_sep (String.list_ascii_of_string rest)) eqn:Hrest;
    [exact IH |].
  destruct (is_sep c) eqn:Hc; [exact Hrest |]. simpl. by rewrite Hc, Hrest.
Qed.

Lemma string_app_assoc (a b c : string) :
  (a +:+ b) +:+ c = a +:+ (b +:+ c).
Proof.
  rewrite <- (String.string_of_list_ascii_of_string ((a +:+ b) +:+ c)),
    <- (String.string_of_list_ascii_of_string (a +:+ (b +:+ c))).
  by rewrite !list_ascii_of_string_app, app_assoc.
Qed.

(** * The further properties on explicit inputs *)

Lemma preprocess_image_gray_witness :
  exists t,
    preprocess_image Demo.env Demo.normal_png initial_state =
      Normal (Some t) (add_log [EImread Demo.normal_png] initial_state) /\
    shape (mk_ndarray [1; 2; 3] uint8 [0; 0; 0; 255; 255; 255]%Z) = [1; 2; 3] /\
    tshape t = [1; 2; 2; 3] /\
    Forall (fun q => (0 <= q <= 1)%Q) (tdata t).
Proof.
  apply (preprocess_image_gray Demo.env Demo.normal_png initial_state
           (mk_ndarray [1; 2] uint8 [0; 255]%Z)
           (mk_ndarray [1; 2; 3] uint8 [0; 0; 0; 255; 255; 255]%Z)
           (mk_ndarray [2; 2; 3] uint8
              [0; 0; 0; 255; 255; 255; 0; 0; 0; 255; 255; 255]%Z)
           1 2).
  - vm_compute. reflexivity.
  - left. reflexivity.
  - vm_compute. reflexivity.
  - vm_compute. reflexivity.
  - reflexivity.
  - repeat constructor; lia.
Defined.

Lemma preprocess_image_rgb_witness :
  exists t,
    preprocess_image Demo.env Demo.covid_jpg initial_state =
      Normal (Some t) (add_log [EImread Demo.covid_jpg] initial_state) /\
    tshape t = [1; 2; 2; 3] /\
    Forall (fun q => (0 <= q <= 1)%Q) (tdata t).
Proof.
  apply (preprocess_image_rgb Demo.env Demo.covid_jpg initial_state
           (mk_ndarray [1; 1; 3] uint8 [10; 20; 30]%Z)
           (mk_ndarray [2; 2; 3] uint8
              [10; 20; 30; 10; 20; 30; 10; 20; 30; 10; 20; 30]%Z)
           1 1).
  - vm_compute. reflexivity.
  - reflexivity.
  - vm_compute. reflexivity.
  - reflexivity.
  - repeat constructor; lia.
Defined.

Lemma predict_image_label_known_witness :
  (Some "NORMAL" = None /\ Some ((7 # 10) * 100)%Q = None) \/
  (exists l c,
      Some "NORMAL" = Some l /\ Some ((7 # 10) * 100)%Q = Some c /\
      In l CLASS_NAMES /\
      is_Some (CLASS_COLORS !! l) /\ color_of l <> "black").
Proof.
  apply (predict_image_label_known Demo.env Demo.normal_png initial_state
           (add_log [EImread Demo.normal_png; EModelPredict] initial_state)).
  vm_compute. reflexivity.
Defined.

Lemma predict_image_label_out_of_range_witness :
  predict_image DemoWide.env Demo.normal_png initial_state =
  Raised (IndexError "index out of range")
    (add_log [EModelPredict] (add_log [EImread Demo.normal_png] initial_state)).
Proof.
  apply (predict_image_label_out_of_range DemoWide.env Demo.normal_png
           initial_state (add_log [EImread Demo.normal_png] initial_state)
           Demo.normal_tensor [1 # 10; 1 # 10; 1 # 10; 1 # 10; 6 # 10] [] 4).
  - vm_compute. reflexivity.
  - reflexivity.
  - reflexivity.
  - lia.
Defined.

Lemma upload_predict_single_shows_witness :
  exists img ops,
    upload_predict_single Demo.env Demo.normal_png initial_state =
      Normal tt
        (set_result_label
           (result_text "NORMAL" ((7 # 10) * 100), color_of "NORMAL")
           (set_image_label (Some (mk_PhotoImage img))
              (add_log [EImread Demo.normal_png; EModelPredict] initial_state))) /\
    im_file img = Demo.normal_png /\
    im_ops img = ops ++ banner (im_width img) "NORMAL" ((7 # 10) * 100).
Proof.
  apply (upload_predict_single_shows Demo.env Demo.normal_png initial_state
           (add_log [EImread Demo.normal_png; EModelPredict] initial_state)
           "NORMAL" ((7 # 10) * 100)%Q "L" 600 400).
  - discriminate.
  - vm_compute. reflexivity.
  - vm_compute. reflexivity.
Defined.

Lemma batch_predict_report_rows_witness :
  exists st',
    batch_predict Demo.env
      ([Demo.normal_png; Demo.covid_jpg] ++ [Demo.corrupt_png]) initial_state
      = Normal tt st' /\
    files st' =
      <[batch_csv_file Demo.env initial_state :=
          csv_header
          :: omap (report_row Demo.env)
               ([Demo.normal_png; Demo.covid_jpg] ++ [Demo.corrupt_png])]>
        (files initial_state) /\
    length (omap (report_row Demo.env)
              ([Demo.normal_png; Demo.covid_jpg] ++ [Demo.corrupt_png])) = 2 /\
    progress_value st' = 2 /\
    progress_maximum st' = 3.
Proof.
  apply (batch_predict_report_rows Demo.env [Demo.normal_png; Demo.covid_jpg]
           [Demo.corrupt_png] initial_state).
  - discriminate.
  - repeat constructor; eexists; vm_compute; reflexivity.
  - repeat constructor; vm_compute; reflexivity.
Defined.

Lemma demo_clock_valid (l : list Event) :
  Nat.leb (Demo.reads l) 59 = true -> valid_datetime (datetime_now Demo.env l).
Proof.
  intros H. apply Nat.leb_le in H. unfold valid_datetime. simpl. lia.
Qed.

Lemma batch_predict_completed_report_witness :
  files DemoRun.finished !! batch_csv_file Demo.env initial_state
    = Some (csv_header :: omap (report_row Demo.env) DemoRun.paths) /\
  length (omap (report_row Demo.env) DemoRun.paths)
    + length (List.filter (skipped Demo.env) DemoRun.paths)
    = length DemoRun.paths.
Proof.
  apply (batch_predict_completed_report Demo.env DemoRun.paths initial_state
           DemoRun.finished).
  - discriminate.
  - vm_compute. reflexivity.
Defined.

Lemma batch_predict_completed_order_witness :
  exists good bad,
    DemoRun.paths = good ++ bad /\
    Forall (fun p => is_Some (report_row Demo.env p)) good /\
    Forall (fun p => skipped Demo.env p = true) bad /\
    progress_value DemoRun.finished = length good /\
    progress_maximum DemoRun.finished = length DemoRun.paths.
Proof.
  apply (batch_predict_completed_order Demo.env DemoRun.paths initial_state
           DemoRun.finished).
  - discriminate.
  - vm_compute. reflexivity.
Defined.

Lemma batch_predict_listbox_matches_report_witness :
  exists rows,
    files DemoRun.finished !! batch_csv_file Demo.env initial_state
      = Some (csv_header :: rows) /\
    Forall2
      (fun (row : list string) (line : item) =>
         exists name label conf,
           row = [name; label; conf +:+ "%"] /\
           line = (name +:+ " → " +:+ label +:+ " (" +:+ conf +:+ "%)",
                   Some (color_of label)))
      rows (listbox DemoRun.finished).
Proof.
  apply (batch_predict_listbox_matches_report Demo.env DemoRun.paths
           initial_state DemoRun.finished).
  - discriminate.
  - vm_compute. reflexivity.
Defined.

Lemma batch_predict_progress_bounded_witness :
  let st' :=
    final_state (batch_predict Demo.env [Demo.corrupt_png; Demo.normal_png]
                   initial_state) in
  progress_maximum st' = 2 /\ progress_value st' <= progress_maximum st'.
Proof.
  apply (batch_predict_progress_bounded Demo.env
           [Demo.corrupt_png; Demo.normal_png] initial_state).
  discriminate.
Defined.

Lemma batch_predict_dialog_count_witness :
  exists l,
    log DemoRun.finished = log initial_state ++ l /\
    length (List.filter is_imread l) = length DemoRun.paths /\
    length (List.filter is_model_call l)
      = length (omap (report_row Demo.env) DemoRun.paths) /\
    length (List.filter is_error_dialog l)
      = length (List.filter (skipped Demo.env) DemoRun.paths) /\
    length (List.filter is_info_dialog l) = 1.
Proof.
  apply (batch_predict_dialog_count Demo.env DemoRun.paths initial_state
           DemoRun.finished).
  - discriminate.
  - vm_compute. reflexivity.
Defined.

Lemma batch_csv_file_distinct_witness :
  batch_csv_file Demo.env initial_state
    <> batch_csv_file Demo.env DemoRun.finished.
Proof.
  apply (batch_csv_file_distinct Demo.env initial_state DemoRun.finished).
  - apply demo_clock_valid. vm_compute. reflexivity.
  - apply demo_clock_valid. vm_compute. reflexivity.
  - intros H. vm_compute in H. discriminate.
Defined.

Lemma batch_predict_second_run_witness :
  let t1 := datetime_now Demo.env (log initial_state ++ [EMakedirs save_folder]) in
  let t2 := datetime_now Demo.env (log DemoRun.finished ++ [EMakedirs save_folder]) in
  (t1 <> t2 ->
   files (final_state (batch_predict Demo.env [Demo.normal_png] DemoRun.finished))
     !! batch_csv_file Demo.env initial_state
     = Some (csv_header :: omap (report_row Demo.env) DemoRun.paths)) /\
  (t1 = t2 ->
   forall st2,
     batch_predict Demo.env [Demo.normal_png] DemoRun.finished = Normal tt st2 ->
     files st2 !! batch_csv_file Demo.env initial_state
       = Some (csv_header :: omap (report_row Demo.env) [Demo.normal_png])).
Proof.
  apply (batch_predict_second_run Demo.env DemoRun.paths [Demo.normal_png]
           initial_state DemoRun.finished).
  - discriminate.
  - discriminate.
  - vm_compute. reflexivity.
  - apply demo_clock_valid. vm_compute. reflexivity.
  - apply demo_clock_valid. vm_compute. reflexivity.
Defined.

(** A second run in a later second: both reports are there. *)
Example two_reports :
  let st2 :=
    final_state (batch_predict Demo.env [Demo.normal_png] DemoRun.finished) in
  files st2 !! batch_csv_file Demo.env initial_state
    = Some [csv_header;
            ["normal.png"; "NORMAL"; "70.00%"];
            ["covid.jpg"; "COVID"; "97.34%"]] /\
  files st2 !! batch_csv_file Demo.env DemoRun.finished
    = Some [csv_header; ["normal.png"; "NORMAL"; "70.00%"]] /\
  listbox st2 = [("normal.png → NORMAL (70.00%)", Some "#4CAF50")].
Proof. repeat split; vm_compute; reflexivity. Qed.

(** * The model file, uncaught failures of the single-image handler, rounding *)

Lemma MODEL_PATH_eq :
  MODEL_PATH = "C:\Users\USER\Desktop\DATASETS\XRAY\" +:+ "classifier_4class.h5".
Proof. vm_compute. reflexivity. Qed.

Lemma csv_file_not_model (ts : string) :
  path_join save_folder (csv_name ts) <> MODEL_PATH.
Proof.
  rewrite csv_file_eq, MODEL_PATH_eq.
  change ("C:\Users\USER\Desktop\DATASETS\XRAY\predictions\xray_predictions_"
            +:+ ts +:+ ".csv")
    with ("C:\Users\USER\Desktop\DATASETS\XRAY\"
            +:+ ("predictions\xray_predictions_" +:+ ts +:+ ".csv")).
  intros H. apply string_app_inv_head in H. discriminate H.
Qed.

(** X19.  No batch run, completed or not, creates or changes the file the
    model is loaded from, although reports are written below the same data
    directory. *)
Theorem batch_predict_keeps_model_file (env : Env) (paths : list string)
    (st : State) :
  files (final_state (batch_predict env paths st)) !! MODEL_PATH
    = files st !! MODEL_PATH.
Proof.
  apply batch_predict_other_files. intros H. symmetry in H.
  by apply csv_file_not_model in H.
Qed.

(** X20.  When OpenCV decodes a file and the model classifies it but Pillow
    cannot open it, [upload_predict_single] raises Pillow's exception: no
    dialog is shown and the display is left as it was. *)
Theorem upload_predict_single_pillow_error (env : Env) (p : string)
    (st s0 : State) (label : string) (c : Q) (e : exn) :
  p <> "" ->
  predict_image env p initial_state = Normal (Some label, Some c) s0 ->
  Image_open env p = Exc e ->
  upload_predict_single env p st =
  Raised e (add_log [EImread p; EModelPredict] st).
Proof.
  intros Hne Hpred Hopen.
  destruct (predict_image_cases env p) as [[e' H] | [(l & q & Hl & H) | [e' H]]];
    rewrite H in Hpred; try discriminate.
  injection Hpred as -> -> _.
  unfold upload_predict_single. rewrite bool_decide_eq_false_2 by exact Hne.
  unfold mbind, M_bind. rewrite H. unfold upload_on_result, overlay_prediction.
  unfold_monad. by rewrite Hopen.
Qed.

(** X21.  When the model refuses the tensor of a decoded image,
    [upload_predict_single] raises the model's exception after the model call:
    no dialog is shown and the display is left as it was. *)
Theorem upload_predict_single_model_error (env : Env) (p : string)
    (st s0 : State) (t : tensor) (e : exn) :
  p <> "" ->
  preprocess_image env p initial_state = Normal (Some t) s0 ->
  model_predict env t = Exc e ->
  upload_predict_single env p st =
  Raised e (add_log [EImread p; EModelPredict] st).
Proof.
  intros Hne Hpre Hmodel.
  pose proof (predict_image_model_raises _ _ _ _ _ _ Hpre Hmodel) as Hp.
  destruct (predict_image_cases env p) as [[e' H] | [(l & q & Hl & H) | [e' H]]];
    rewrite H in Hp; try discriminate.
  injection Hp as -> _.
  unfold upload_predict_single. rewrite bool_decide_eq_false_2 by exact Hne.
  unfold mbind, M_bind. by rewrite H.
Qed.

Lemma upload_predict_single_pillow_error_witness :
  upload_predict_single Demo.env Demo.deep_png initial_state =
  Raised (OSError "cannot identify image file")
    (add_log [EImread Demo.deep_png; EModelPredict] initial_state).
Proof.
  apply (upload_predict_single_pillow_error Demo.env Demo.deep_png initial_state
           (add_log [EImread Demo.deep_png; EModelPredict] initial_state)
           "COVID" ((97345 # 100000) * 100)%Q).
  - discriminate.
  - vm_compute. reflexivity.
  - vm_compute. reflexivity.
Defined.

Lemma upload_predict_single_model_error_witness :
  upload_predict_single Demo.env Demo.alpha_png initial_state =
  Raised (ModelError "input is incompatible with the layer: expected shape (None, 2, 2, 3)")
    (add_log [EImread Demo.alpha_png; EModelPredict] initial_state).
Proof.
  apply (upload_predict_single_model_error Demo.env Demo.alpha_png initial_state
           (add_log [EImread Demo.alpha_png] initial_state) Demo.alpha_tensor).
  - discriminate.
  - vm_compute. reflexivity.
  - vm_compute. reflexivity.
Defined.

Lemma round_half_even_near (q : Q) :
  (Qabs (inject_Z (round_half_even q) - q) <= 1 # 2)%Q.
Proof.
  apply Qabs_Qle_condition. destruct q as [n d]. unfold round_half_even.
  cbn [Qnum Qden].
  pose proof (Z.div_mod n (Z.pos d) ltac:(lia)) as Hdm.
  pose proof (Z.mod_pos_bound n (Z.pos d) ltac:(lia)) as Hmod.
  destruct (Z.compare_spec (2 * (n mod Z.pos d)) (Z.pos d)) as [He | Hl | Hg];
    [destruct (Z.even (n / Z.pos d)) |..];
    split; unfold Qle, Qminus, Qplus, Qopp, inject_Z; cbn [Qnum Qden];
    nia.
Qed.

(** X22.  The confidence is written as the hundredth nearest to it: the string
    is the sign, then the digits of [n / 100], a point and the two digits of
    [n mod 100], where [n] is an integer within one half of a hundred times
    the magnitude of the confidence. *)
Theorem format_2f_nearest (x : Q) :
  exists n : Z,
    (0 <= n)%Z /\
    (Qabs (inject_Z n - Qabs x * 100) <= 1 # 2)%Q /\
    format_2f x =
      (if (Qnum x <? 0)%Z then "-" else "")
        +:+ dec (n / 100) +:+ "." +:+ zpad 2 (n mod 100) /\
    digits_n 2 (zpad 2 (n mod 100)) = true.
Proof.
  exists (round_half_even (Qabs x * 100)). split; [| split; [| split]].
  - assert (H0 : (0 <= Qabs x * 100)%Q).
    { apply Qmult_le_0_compat; [apply Qabs_nonneg | discriminate]. }
    destruct (Qabs x * 100)%Q as [n d]. unfold Qle in H0. simpl in H0.
    unfold round_half_even. cbn [Qnum Qden].
    assert (0 <= n / Z.pos d)%Z by (apply Z.div_pos; lia).
    destruct (2 * (n mod Z.pos d) ?= Z.pos d)%Z; [destruct (Z.even _) |..]; lia.
  - apply round_half_even_near.
  - reflexivity.
  - apply zpad2_digits.
    pose proof (Z.mod_pos_bound (round_half_even (Qabs x * 100)) 100). lia.
Qed.

(** * The banner and the report rows, read back *)

(** ** Numbers and paths *)

Lemma to_uint_normal (n : N) : Decimal.unorm (N.to_uint n) = N.to_uint n.
Proof.
  rewrite <- (DecimalN.Unsigned.to_of (N.to_uint n)).
  by rewrite DecimalN.Unsigned.of_to.
Qed.

Lemma read_digits_dec (z : Z) : (0 <= z)%Z -> read_digits (dec z) = Some z.
Proof.
  intros Hz. unfold read_digits, dec. rewrite NilZero.usu.
  - by rewrite DecimalN.Unsigned.of_to, Z2N.id.
  - rewrite <- to_uint_normal. apply DecimalFacts.unorm_nonnil.
Qed.

Lemma read_dec_dec (z : Z) : (0 <= z)%Z -> read_dec (dec z) = Some z.
Proof.
  intros Hz. pose proof (read_digits_dec z Hz) as Hr.
  unfold read_dec. unfold dec in *.
  pose proof (to_uint_normal (Z.to_N z)) as Hn.
  destruct (N.to_uint (Z.to_N z)) as [|d|d|d|d|d|d|d|d|d|d]; try exact Hr;
    try (destruct d; exact Hr).
  rewrite DecimalFacts.unorm_D0 in Hn.
  destruct (Decimal.nzhead d) eqn:Hd.
  1: { unfold Decimal.unorm in Hn. rewrite Hd in Hn. injection Hn as <-. exact Hr. }
  all: rewrite DecimalFacts.unorm_nzhead in Hn by (rewrite Hd; discriminate);
    by apply DecimalFacts.nzhead_nonzero in Hn.
Qed.

Lemma read_digits_zpad2 (z : Z) :
  (0 <= z <= 99)%Z ->
  read_digits (zpad 2 z) = Some z /\ String.length (zpad 2 z) = 2.
Proof.
  intros Hz.
  assert (Hall : forallb
            (fun n => bool_decide (read_digits (zpad 2 (Z.of_nat n)) = Some (Z.of_nat n))
                      && Nat.eqb (String.length (zpad 2 (Z.of_nat n))) 2)
            (seq 0 (Z.to_nat 100)) = true) by (vm_compute; reflexivity).
  rewrite forallb_forall in Hall.
  specialize (Hall (Z.to_nat z)). rewrite Z2Nat.id in Hall by lia.
  apply andb_prop in Hall as [H1 H2]; [| apply in_seq; lia].
  split; [by apply bool_decide_eq_true in H1 | by apply Nat.eqb_eq in H2].
Qed.

Lemma round_half_even_nonneg (q : Q) : (0 <= q)%Q -> (0 <= round_half_even q)%Z.
Proof.
  intros H0. destruct q as [n d]. unfold Qle in H0. simpl in H0.
  unfold round_half_even. cbn [Qnum Qden].
  assert (0 <= n / Z.pos d)%Z by (apply Z.div_pos; lia).
  destruct (2 * (n mod Z.pos d) ?= Z.pos d)%Z; [destruct (Z.even _) |..]; lia.
Qed.

Lemma round_half_even_tie (q : Q) :
  (Qabs (inject_Z (round_half_even q) - q) == 1 # 2)%Q ->
  Z.even (round_half_even q) = true.
Proof.
  destruct q as [n d]. unfold round_half_even. cbn [Qnum Qden].
  pose proof (Z.div_mod n (Z.pos d) ltac:(lia)) as Hdm.
  pose proof (Z.mod_pos_bound n (Z.pos d) ltac:(lia)) as Hmod.
  intros Ht.
  destruct (Z.compare_spec (2 * (n mod Z.pos d)) (Z.pos d)) as [He | Hl | Hg].
  - destruct (Z.even (n / Z.pos d)) eqn:Hev; [exact Hev |].
    rewrite Z.add_1_r, Z.even_succ, <- Z.negb_even, Hev. reflexivity.
  - exfalso. revert Ht. apply Qabs_case; intros _;
      unfold Qeq, Qminus, Qplus, Qopp, inject_Z; cbn [Qnum Qden]; nia.
  - exfalso. revert Ht. apply Qabs_case; intros _;
      unfold Qeq, Qminus, Qplus, Qopp, inject_Z; cbn [Qnum Qden]; nia.
Qed.

Lemma format_2f_writes (x : Q) : writes_2f (format_2f x) x.
Proof.
  assert (H0 : (0 <= Qabs x * 100)%Q).
  { apply Qmult_le_0_compat; [apply Qabs_nonneg | discriminate]. }
  pose proof (round_half_even_nonneg _ H0) as Hn.
  set (n := round_half_even (Qabs x * 100)) in *.
  pose proof (Z.mod_pos_bound n 100 ltac:(lia)) as Hmod.
  destruct (read_digits_zpad2 (n mod 100)) as [Hf Hl]; [lia |].
  exists (if (Qnum x <? 0)%Z then "-" else ""), (dec (n / 100)),
    (zpad 2 (n mod 100)), n.
  split; [| split; [| split; [| split; [| split; [| split; [| split]]]]]].
  - reflexivity.
  - destruct (Z.ltb_spec (Qnum x) 0) as [Hneg | Hpos]; [left | right];
      (split; [| reflexivity]); destruct x as [a b]; unfold Qlt, Qle; simpl in *; lia.
  - apply read_dec_dec. apply Z.div_pos; lia.
  - exact Hf.
  - exact Hl.
  - exact Hn.
  - apply round_half_even_near.
  - apply round_half_even_tie.
Qed.

Lemma splitdrive_split (p : string) :
  exists drive, p = drive +:+ snd (splitdrive p) /\ is_drive p drive.
Proof.
  destruct p as [|d [|c rest]].
  - exists "". split; [reflexivity |]. left. split; [reflexivity | discriminate].
  - exists "". split; [reflexivity |]. left. split; [reflexivity | discriminate].
  - unfold splitdrive. case_bool_decide as Hc.
    + subst c. exists (String d (String colon "")).
      split; [reflexivity |]. right. by exists d.
    + exists "". split; [reflexivity |]. left. split; [reflexivity |].
      intros d' rest' Heq. injection Heq as _ Hcolon _. contradiction.
Qed.

Lemma after_last_sep_split (s : string) :
  exists dir, s = dir +:+ after_last_sep s /\ is_dir_prefix dir.
Proof.
  induction s as [|c rest (dir & Hrest & Hdir)].
  - exists "". split; [reflexivity | by left].
  - simpl.
    destruct (existsb is_sep (String.list_ascii_of_string rest)) eqn:Hsep.
    + exists (String c dir).
      split; [change (String c rest = String c (dir +:+ after_last_sep rest));
              by f_equal |].
      right. destruct Hdir as [-> | (d & c' & -> & Hc')].
      * pose proof (after_last_sep_no_sep rest) as Hno.
        change ("" +:+ after_last_sep rest) with (after_last_sep rest) in Hrest.
        rewrite <- Hrest in Hno. congruence.
      * by exists (String c d), c'.
    + destruct (is_sep c) eqn:Hc.
      * exists (String c ""). split; [reflexivity |]. right. by exists "", c.
      * exists "". split; [reflexivity | by left].
Qed.

Lemma basename_split (p : string) :
  exists drive dir,
    p = drive +:+ dir +:+ basename p /\ is_drive p drive /\ is_dir_prefix dir /\
    existsb is_sep (String.list_ascii_of_string (basename p)) = false.
Proof.
  destruct (splitdrive_split p) as (drive & Hp & Hdrive).
  destruct (after_last_sep_split (snd (splitdrive p))) as (dir & Hrest & Hdir).
  exists drive, dir. unfold basename.
  split; [by rewrite <- Hrest |].
  split; [exact Hdrive |]. split; [exact Hdir | apply after_last_sep_no_sep].
Qed.

(** ** The banner of [overlay_prediction] and the rows of the report *)

(** C8, as the program has it.  For an image that Pillow opens,
    [overlay_prediction] returns an RGB image no wider and no higher than 300
    and no larger than the original, either the original size or one side 300
    and the other the proportional length up to rounding.  The last two
    things drawn on it are a rectangle and a text.  The rectangle has the
    corners (0,0) and (width,25) and the colour of the label, black for a
    label without a colour: it paints the full width of the first 25 rows of
    the image, of all its rows when the image is lower, and nothing below row
    25.  The text is the label and, in brackets, the confidence written with
    two decimals and a percent sign, in white, from the point (5,5), which is
    a point of the painted band when the image is more than 5 wide and high.
    The world is left exactly as it was. *)
Theorem overlay_prediction_banner (env : Env) (path label : string) (c : Q)
    (mode : string) (w h : Z) (st : State) :
  Image_open env path = Ret (mode, w, h) ->
  (0 < w)%Z -> (0 < h)%Z ->
  exists img ops rect s,
    overlay_prediction env path label (Some c) st = Normal (mk_PhotoImage img) st /\
    im_mode img = "RGB" /\
    (1 <= im_width img <= 300 /\ 1 <= im_height img <= 300 /\
     im_width img <= w /\ im_height img <= h)%Z /\
    ((im_width img = w /\ im_height img = h) \/
     (im_height img = 300 /\ Z.abs (im_width img * h - 300 * w) < h) \/
     (im_width img = 300 /\ Z.abs (im_height img * w - 300 * h) < w))%Z /\
    im_ops img =
      ops ++ [rect; OpText 5 5 (label +:+ " (" +:+ s +:+ "%)") "white"] /\
    Forall is_raster_op ops /\
    rect = OpRectangle 0 0 (im_width img) 25
             (default "black" (CLASS_COLORS !! label)) /\
    (forall x y,
        (0 <= x < im_width img)%Z -> (0 <= y < 25)%Z -> (y < im_height img)%Z ->
        covers rect (im_width img) (im_height img) x y = true) /\
    (forall x y,
        covers rect (im_width img) (im_height img) x y = true ->
        (0 <= x < im_width img /\ 0 <= y <= 25 /\ y < im_height img)%Z) /\
    ((5 < im_width img)%Z -> (5 < im_height img)%Z ->
     covers rect (im_width img) (im_height img) 5 5 = true) /\
    writes_2f s c.
Proof.
  intros Hopen Hw Hh. unfold overlay_prediction. unfold_monad.
  rewrite Hopen. cbn beta iota.
  set (img0 := if bool_decide (im_mode (mk_image path mode w h []) = "RGB")
               then mk_image path mode w h []
               else convert "RGB" (mk_image path mode w h [])).
  assert (H0 : im_mode img0 = "RGB" /\ im_width img0 = w /\ im_height img0 = h /\
               Forall is_raster_op (im_ops img0)).
  { subst img0. cbn [im_mode]. destruct (bool_decide (mode = "RGB")) eqn:Hm.
    - apply bool_decide_eq_true in Hm. cbn. auto.
    - cbn. repeat split. by repeat constructor. }
  destruct H0 as (Hmode & Hw0 & Hh0 & Hops0).
  destruct (thumbnail_300 img0) as (Hm1 & Hb & Ha & ops1 & Ho1 & Hr1);
    [lia | lia |].
  rewrite Hw0, Hh0 in *.
  set (img1 := thumbnail 300 300 img0) in *.
  exists (draw_text 5 5 (label +:+ " (" +:+ format_2f c +:+ "%)") "white"
            (draw_rectangle 0 0 (im_width img1) 25 (color_of label) img1)),
    (im_ops img0 ++ ops1),
    (OpRectangle 0 0 (im_width img1) 25 (default "black" (CLASS_COLORS !! label))),
    (format_2f c).
  cbn [draw_text draw_rectangle im_mode im_width im_height im_ops format_conf
       covers].
  split; [reflexivity |]. split; [congruence |]. split; [lia |].
  split; [lia |].
  split; [rewrite Ho1, <- !app_assoc; reflexivity |].
  split; [apply Forall_app; auto |].
  split; [reflexivity |].
  split; [intros x y Hx Hy Hy'; apply Is_true_true; repeat (apply andb_True; split);
          apply Is_true_true; lia |].
  split.
  { intros x y Hc. apply Is_true_true in Hc.
    repeat (apply andb_True in Hc as [Hc ?]).
    repeat match goal with H : Is_true _ |- _ => apply Is_true_true in H end.
    lia. }
  split; [intros H5 H5'; apply Is_true_true; repeat (apply andb_True; split);
          apply Is_true_true; lia |].
  apply format_2f_writes.
Qed.

(** X18.  A row of the report has three fields.  The first is the path of the
    file without its drive and its directories: what is left holds no
    separator.  The second is the label [predict_image] returned, one of
    [CLASS_NAMES].  The third is the confidence [predict_image] returned,
    a finite number, written with two decimals and followed by a percent
    sign. *)
Theorem report_row_shape (env : Env) (p : string) (row : list string) :
  report_row env p = Some row ->
  exists drive dir name label conf s st',
    row = [name; label; s +:+ "%"] /\
    p = drive +:+ dir +:+ name /\ is_drive p drive /\ is_dir_prefix dir /\
    existsb is_sep (String.list_ascii_of_string name) = false /\
    predict_image env p initial_state = Normal (Some label, Some conf) st' /\
    In label CLASS_NAMES /\
    writes_2f s conf.
Proof.
  intros Hrow.
  destruct (classify env p)
    as [(e & _ & _ & Hr & _) | [(l & c & Hl & Hp & _ & Hr & _) | (e & _ & _ & Hr & _)]];
    rewrite Hr in Hrow; try discriminate.
  injection Hrow as <-.
  destruct (basename_split p) as (drive & dir & Hsplit & Hdrive & Hdir & Hname).
  exists drive, dir, (basename p), l, c, (format_2f c),
    (add_log [EImread p; EModelPredict] initial_state).
  split; [reflexivity |]. split; [exact Hsplit |].
  split; [exact Hdrive |]. split; [exact Hdir |]. split; [exact Hname |].
  split; [apply Hp |]. split; [exact Hl | apply format_2f_writes].
Qed.

Lemma overlay_prediction_banner_witness :
  exists img ops rect s,
    overlay_prediction Demo.env Demo.normal_png "NORMAL" (Some (70 # 1)) initial_state
      = Normal (mk_PhotoImage img) initial_state /\
    im_mode img = "RGB" /\
    (1 <= im_width img <= 300 /\ 1 <= im_height img <= 300 /\
     im_width img <= 600 /\ im_height img <= 400)%Z /\
    ((im_width img = 600 /\ im_height img = 400) \/
     (im_height img = 300 /\ Z.abs (im_width img * 400 - 300 * 600) < 400) \/
     (im_width img = 300 /\ Z.abs (im_height img * 600 - 300 * 400) < 600))%Z /\
    im_ops img =
      ops ++ [rect; OpText 5 5 ("NORMAL" +:+ " (" +:+ s +:+ "%)") "white"] /\
    Forall is_raster_op ops /\
    rect = OpRectangle 0 0 (im_width img) 25
             (default "black" (CLASS_COLORS !! "NORMAL")) /\
    (forall x y,
        (0 <= x < im_width img)%Z -> (0 <= y < 25)%Z -> (y < im_height img)%Z ->
        covers rect (im_width img) (im_height img) x y = true) /\
    (forall x y,
        covers rect (im_width img) (im_height img) x y = true ->
        (0 <= x < im_width img /\ 0 <= y <= 25 /\ y < im_height img)%Z) /\
    ((5 < im_width img)%Z -> (5 < im_height img)%Z ->
     covers rect (im_width img) (im_height img) 5 5 = true) /\
    writes_2f s (70 # 1).
Proof.
  apply (overlay_prediction_banner Demo.env Demo.normal_png "NORMAL" (70 # 1)
           "L" 600 400 initial_state).
  - vm_compute. reflexivity.
  - lia.
  - lia.
Defined.

(** On a strip of 3000 by 10 pixels, which is scaled to 300 by 1, the band
    cannot be 25 rows high. *)
Lemma overlay_band_not_25_high :
  ~ banner_25_high DemoThin.env DemoThin.strip_png "NORMAL" (70 # 1).
Proof.
  intros H.
  pose proof (H (mk_image DemoThin.strip_png "RGB" 300 1
                   [OpResize 300 1; OpRectangle 0 0 300 25 "#4CAF50";
                    OpText 5 5 "NORMAL (70.00%)" "white"])
                [OpResize 300 1] (OpRectangle 0 0 300 25 "#4CAF50")
                (OpText 5 5 "NORMAL (70.00%)" "white")
                initial_state initial_state) as Hband.
  destruct (Hband ltac:(vm_compute; reflexivity) eq_refl 0%Z 5%Z) as [_ Hcov].
  specialize (Hcov ltac:(simpl; lia)). vm_compute in Hcov. discriminate Hcov.
Qed.

Lemma report_row_shape_witness :
  exists drive dir name label conf s st',
    ["covid.jpg"; "COVID"; "97.34%"] = [name; label; s +:+ "%"] /\
    Demo.covid_jpg = drive +:+ dir +:+ name /\
    is_drive Demo.covid_jpg drive /\ is_dir_prefix dir /\
    existsb is_sep (String.list_ascii_of_string name) = false /\
    predict_image Demo.env Demo.covid_jpg initial_state
      = Normal (Some label, Some conf) st' /\
    In label CLASS_NAMES /\
    writes_2f s conf.
Proof.
  apply (report_row_shape Demo.env Demo.covid_jpg).
  vm_compute. reflexivity.
Defined.
